(** * hyprbot: the asynchronous request pipeline, embedded and verified

    A shallow embedding of the Go sources of hyprbot (ingress processor,
    telegram service handlers, storage, stream queue, rate limiter, crypto
    envelope, provider adapters and worker) together with the properties the
    specification states about them.

    Layout: the Go runtime pieces the code leans on (strings, UTF-8), then one
    module per Go package, then the lemmas and theorems. *)

From Stdlib Require Import ZArith Lia List String Ascii Bool.
From stdpp Require Import gmap strings list.

Local Open Scope Z_scope.

(** ** Go strings

    A Go [string] is a sequence of bytes; it is modelled by [string], one
    [ascii] per byte. [[]rune(s)] and [string(runes)] are the conversions of
    the language: decoding yields U+FFFD for every byte that does not start a
    well-formed UTF-8 sequence and advances by one byte. *)
Module GoString.

Definition bytes_of (s : string) : list Z :=
  map (fun a => Z.of_N (N_of_ascii a)) (list_ascii_of_string s).

Definition string_of_bytes (bs : list Z) : string :=
  string_of_list_ascii (map (fun b => ascii_of_N (Z.to_N b)) bs).

Definition is_byte (b : Z) : Prop := 0 <= b < 256.

Definition RuneError : Z := 0xFFFD.

Definition cont (b : Z) : bool := (0x80 <=? b) && (b <=? 0xBF).

Definition lead2 (b0 : Z) : bool := (0xC2 <=? b0) && (b0 <=? 0xDF).

(** Lead byte of a three byte sequence with the range its second byte must
    lie in (no overlong forms, no surrogates). *)
Definition lead3 (b0 b1 : Z) : bool :=
  (0xE0 <=? b0) && (b0 <=? 0xEF) &&
  ((if b0 =? 0xE0 then 0xA0 else 0x80) <=? b1) &&
  (b1 <=? (if b0 =? 0xED then 0x9F else 0xBF)).

Definition lead4 (b0 b1 : Z) : bool :=
  (0xF0 <=? b0) && (b0 <=? 0xF4) &&
  ((if b0 =? 0xF0 then 0x90 else 0x80) <=? b1) &&
  (b1 <=? (if b0 =? 0xF4 then 0x8F else 0xBF)).

(** [[]rune(s)] on the bytes of [s]. *)
Fixpoint decode (s : list Z) : list Z :=
  match s with
  | [] => []
  | b0 :: t0 =>
    if (0 <=? b0) && (b0 <? 0x80) then b0 :: decode t0 else
    match t0 with
    | [] => RuneError :: decode t0
    | b1 :: t1 =>
      if lead2 b0 && cont b1
      then ((b0 - 0xC0) * 64 + (b1 - 0x80)) :: decode t1 else
      match t1 with
      | [] => RuneError :: decode t0
      | b2 :: t2 =>
        if lead3 b0 b1 && cont b2
        then ((b0 - 0xE0) * 4096 + (b1 - 0x80) * 64 + (b2 - 0x80)) :: decode t2 else
        match t2 with
        | [] => RuneError :: decode t0
        | b3 :: t3 =>
          if lead4 b0 b1 && cont b2 && cont b3
          then ((b0 - 0xF0) * 262144 + (b1 - 0x80) * 4096
                + (b2 - 0x80) * 64 + (b3 - 0x80)) :: decode t3
          else RuneError :: decode t0
        end
      end
    end
  end.

(** A rune that [string(r)] encodes as itself: a Unicode scalar value. *)
Definition scalar (r : Z) : bool :=
  (0 <=? r) && (r <=? 0x10FFFF) && negb ((0xD800 <=? r) && (r <=? 0xDFFF)).

Definition encode_rune (r : Z) : list Z :=
  if negb (scalar r) then [0xEF; 0xBF; 0xBD]
  else if r <? 0x80 then [r]
  else if r <? 0x800 then [0xC0 + r / 64; 0x80 + r mod 64]
  else if r <? 0x10000 then
    [0xE0 + r / 4096; 0x80 + (r / 64) mod 64; 0x80 + r mod 64]
  else [0xF0 + r / 262144; 0x80 + (r / 4096) mod 64;
        0x80 + (r / 64) mod 64; 0x80 + r mod 64].

Definition encode (rs : list Z) : list Z := flat_map encode_rune rs.

Definition runes (s : string) : list Z := decode (bytes_of s).

Definition string_of_runes (rs : list Z) : string := string_of_bytes (encode rs).

(** The string a JSON encoder writes for [s]: "coerced to valid UTF-8,
    replacing invalid bytes with the Unicode replacement rune"
    (encoding/json), read back. *)
Definition utf8_coerce (s : string) : string := string_of_runes (runes s).

(** [strings.TrimSpace]: leading and trailing white space, as defined by
    Unicode, is removed. The white space runes are U+0009..U+000D, U+0020,
    U+0085, U+00A0, U+1680, U+2000..U+200A, U+2028, U+2029, U+202F, U+205F
    and U+3000; each is recognised by its UTF-8 encoding, from the front
    and, mirrored, from the back. *)
Definition asciiSpace (b : Z) : bool :=
  ((0x09 <=? b) && (b <=? 0x0D)) || (b =? 0x20).

Definition space2 (b0 b1 : Z) : bool :=
  (b0 =? 0xC2) && ((b1 =? 0x85) || (b1 =? 0xA0)).

Definition space3 (b0 b1 b2 : Z) : bool :=
  ((b0 =? 0xE1) && (b1 =? 0x9A) && (b2 =? 0x80)) ||
  ((b0 =? 0xE2) && (b1 =? 0x80) &&
     (((0x80 <=? b2) && (b2 <=? 0x8A)) || (b2 =? 0xA8) || (b2 =? 0xA9) || (b2 =? 0xAF))) ||
  ((b0 =? 0xE2) && (b1 =? 0x81) && (b2 =? 0x9F)) ||
  ((b0 =? 0xE3) && (b1 =? 0x80) && (b2 =? 0x80)).

Fixpoint trimLeft (s : list Z) : list Z :=
  match s with
  | [] => []
  | b0 :: t0 =>
    if asciiSpace b0 then trimLeft t0 else
    match t0 with
    | [] => s
    | b1 :: t1 =>
      if space2 b0 b1 then trimLeft t1 else
      match t1 with
      | [] => s
      | b2 :: t2 => if space3 b0 b1 b2 then trimLeft t2 else s
      end
    end
  end.

(** The same scan on the reversed string: the last byte comes first. *)
Fixpoint trimLeftRev (s : list Z) : list Z :=
  match s with
  | [] => []
  | b0 :: t0 =>
    if asciiSpace b0 then trimLeftRev t0 else
    match t0 with
    | [] => s
    | b1 :: t1 =>
      if space2 b1 b0 then trimLeftRev t1 else
      match t1 with
      | [] => s
      | b2 :: t2 => if space3 b2 b1 b0 then trimLeftRev t2 else s
      end
    end
  end.

Definition TrimSpace (s : string) : string :=
  string_of_bytes (rev (trimLeftRev (rev (trimLeft (bytes_of s))))).

Definition blank (s : string) : bool := String.eqb (TrimSpace s) EmptyString.

End GoString.

(** ** Errors and results

  A Go [(T, error)] pair is a [result T]. The sentinel [storage.ErrNotFound]
  and [context.Canceled] are kept apart because the code tests for them;
  every other error is its message (the constant part of the format string;
  [%w] wrapping keeps the message of the outermost wrapper). *)
Inductive error : Type :=
| ErrNotFound
| ErrCanceled
| ErrMsg (msg : string).

Inductive result (A : Type) : Type :=
| Ok (a : A)
| Err (e : error).
Arguments Ok {A} a.
Arguments Err {A} e.

Definition is_not_found (e : error) : bool :=
match e with ErrNotFound => true | _ => false end.

(** ** package crypto (the envelope) *)
Module crypto.
Import GoString.

(** A [[]byte] is modelled like a Go string: one [ascii] per byte. *)
Abbreviation bytes := string.

Record Envelope := {
  KeyID : string;
  Nonce : string;
  Ciphertext : string;
}.

Record Manager := {
  currentKeyID : string;
  keys : gmap string bytes;
}.

(** The standard library calls of the package: AES-GCM sealing and opening
    ([cipher.AEAD]), [base64.StdEncoding] and [encoding/json] on an
    [Envelope]. Their code is not part of the repository; they are a
    parameter of the model and [LibOk] states the contract the library
    documents for them. *)
Record Lib := {
  Seal : bytes -> bytes -> bytes -> bytes;
  Open : bytes -> bytes -> bytes -> option bytes;
  EncodeToString : bytes -> string;
  DecodeString : string -> option bytes;
  Marshal : Envelope -> string;
  Unmarshal : string -> option Envelope;
}.

(** What [json.Marshal] does to the three string fields. *)
Definition coerce_envelope (e : Envelope) : Envelope :=
  {| KeyID := utf8_coerce (KeyID e);
     Nonce := utf8_coerce (Nonce e);
     Ciphertext := utf8_coerce (Ciphertext e) |}.

Definition aesKeySize (k : bytes) : bool :=
  let n := String.length k in
  (Nat.eqb n 16 || Nat.eqb n 24 || Nat.eqb n 32)%bool.

Definition NonceSize : nat := 12.

Record LibOk (L : Lib) : Prop := {
  open_seal : forall k n p,
    aesKeySize k = true -> String.length n = NonceSize ->
    Open L k n (Seal L k n p) = Some p;
  decode_encode : forall b, DecodeString L (EncodeToString L b) = Some b;
  encode_utf8 : forall b, utf8_coerce (EncodeToString L b) = EncodeToString L b;
  unmarshal_marshal : forall e, Unmarshal L (Marshal L e) = Some (coerce_envelope e);
}.

Definition all_keys_32 (ks : gmap string bytes) : bool :=
  forallb (fun kv => Nat.eqb (String.length (snd kv)) 32) (map_to_list ks).

Definition NewManager (currentKeyID : string) (keys : gmap string bytes)
  : result Manager :=
  if String.eqb currentKeyID EmptyString then Err (ErrMsg "current key id is empty")
  else if Nat.eqb (size keys) 0 then Err (ErrMsg "keys map is empty")
  else match keys !! currentKeyID with
       | None => Err (ErrMsg "current key id not found")
       | Some _ =>
         if all_keys_32 keys
         then Ok {| currentKeyID := currentKeyID; keys := keys |}
         else Err (ErrMsg "key must be 32 bytes")
       end.

(** [m.keys[id]]: the zero value (a nil slice) for an absent id. *)
Definition key_or_nil (m : Manager) (id : string) : bytes :=
  default EmptyString (keys m !! id).

(** [rnd] is what [rand.Read] delivers for the nonce, [None] when it
    fails. *)
Definition Encrypt (L : Lib) (m : Manager) (rnd : option bytes) (plaintext : bytes)
  : result Envelope :=
  let key := key_or_nil m (currentKeyID m) in
  if negb (aesKeySize key) then Err (ErrMsg "new cipher") else
  match rnd with
  | None => Err (ErrMsg "nonce")
  | Some nonce =>
    let ciphertext := Seal L key nonce plaintext in
    Ok {| KeyID := currentKeyID m;
          Nonce := EncodeToString L nonce;
          Ciphertext := EncodeToString L ciphertext |}
  end.

Definition Decrypt (L : Lib) (m : Manager) (env : Envelope) : result bytes :=
  match keys m !! KeyID env with
  | None => Err (ErrMsg "unknown key id")
  | Some key =>
    match DecodeString L (Nonce env) with
    | None => Err (ErrMsg "decode nonce")
    | Some nonce =>
      match DecodeString L (Ciphertext env) with
      | None => Err (ErrMsg "decode ciphertext")
      | Some ciphertext =>
        if negb (aesKeySize key) then Err (ErrMsg "new cipher") else
        match Open L key nonce ciphertext with
        | None => Err (ErrMsg "decrypt")
        | Some plaintext => Ok plaintext
        end
      end
    end
  end.

Definition MarshalEncryptedString (L : Lib) (m : Manager) (rnd : option bytes)
    (value : string) : result string :=
  match Encrypt L m rnd value with
  | Err e => Err e
  | Ok env => Ok (Marshal L env)
  end.

Definition UnmarshalEncryptedString (L : Lib) (m : Manager) (raw : string)
  : result string :=
  match Unmarshal L raw with
  | None => Err (ErrMsg "unmarshal envelope")
  | Some env =>
    match Decrypt L m env with
    | Err e => Err e
    | Ok pt => Ok pt
    end
  end.

Definition ReEncrypt (L : Lib) (m : Manager) (rnd : option bytes) (raw : string)
  : result string :=
  match UnmarshalEncryptedString L m raw with
  | Err e => Err e
  | Ok plain => MarshalEncryptedString L m rnd plain
  end.

(** *** A small instance of the library contract

    Used to run the model on concrete inputs. The sealed box is the key and
    the nonce followed by the plaintext (so opening under another key or
    nonce is rejected); bytes are written as two letters from ['@'..'O'];
    the envelope is written as a JSON object whose strings escape the quote
    and the backslash. *)
Fixpoint strip_prefix (p s : string) : option string :=
  match p with
  | EmptyString => Some s
  | String a p' =>
    match s with
    | String b s' => if Ascii.eqb a b then strip_prefix p' s' else None
    | EmptyString => None
    end
  end.

Definition refSeal (k n p : bytes) : bytes := (k +:+ n) +:+ p.
Definition refOpen (k n c : bytes) : option bytes := strip_prefix (k +:+ n) c.

Fixpoint refEncode (b : bytes) : string :=
  match b with
  | EmptyString => EmptyString
  | String (Ascii b0 b1 b2 b3 b4 b5 b6 b7) r =>
    String (Ascii b0 b1 b2 b3 false false true false)
      (String (Ascii b4 b5 b6 b7 false false true false) (refEncode r))
  end.

Fixpoint refDecode (s : string) : option bytes :=
  match s with
  | EmptyString => Some EmptyString
  | String (Ascii b0 b1 b2 b3 false false true false)
      (String (Ascii b4 b5 b6 b7 false false true false) r) =>
    match refDecode r with
    | Some b => Some (String (Ascii b0 b1 b2 b3 b4 b5 b6 b7) b)
    | None => None
    end
  | _ => None
  end.

Definition quote : ascii := ascii_of_nat 34.
Definition backslash : ascii := ascii_of_nat 92.
Definition q : string := String quote EmptyString.

Fixpoint escape (s : string) : string :=
  match s with
  | EmptyString => EmptyString
  | String a r =>
    if (Ascii.eqb a quote || Ascii.eqb a backslash)%bool
    then String backslash (String a (escape r))
    else String a (escape r)
  end.

(** Reads an escaped string up to its closing quote; returns it and what
    follows the quote. *)
Fixpoint unescape (s : string) : option (string * string) :=
  match s with
  | EmptyString => None
  | String a r =>
    if Ascii.eqb a quote then Some (EmptyString, r)
    else if Ascii.eqb a backslash then
      match r with
      | String b r' =>
        match unescape r' with
        | Some (v, rest) => Some (String b v, rest)
        | None => None
        end
      | EmptyString => None
      end
    else
      match unescape r with
      | Some (v, rest) => Some (String a v, rest)
      | None => None
      end
  end.

Definition open_key_id : string := "{" +:+ q +:+ "key_id" +:+ q +:+ ":" +:+ q.
Definition sep_nonce : string := "," +:+ q +:+ "nonce" +:+ q +:+ ":" +:+ q.
Definition sep_ciphertext : string := "," +:+ q +:+ "ciphertext" +:+ q +:+ ":" +:+ q.

Definition refMarshal (e : Envelope) : string :=
  open_key_id +:+ (escape (utf8_coerce (KeyID e)) +:+ q) +:+
  (sep_nonce +:+ (escape (utf8_coerce (Nonce e)) +:+ q) +:+
  (sep_ciphertext +:+ (escape (utf8_coerce (Ciphertext e)) +:+ q) +:+ "}")).

Definition refUnmarshal (raw : string) : option Envelope :=
  match strip_prefix open_key_id raw with
  | None => None
  | Some r1 =>
    match unescape r1 with
    | None => None
    | Some (kid, r2) =>
      match strip_prefix sep_nonce r2 with
      | None => None
      | Some r3 =>
        match unescape r3 with
        | None => None
        | Some (nonce, r4) =>
          match strip_prefix sep_ciphertext r4 with
          | None => None
          | Some r5 =>
            match unescape r5 with
            | None => None
            | Some (ct, r6) =>
              if String.eqb r6 "}"
              then Some {| KeyID := kid; Nonce := nonce; Ciphertext := ct |}
              else None
            end
          end
        end
      end
    end
  end.

Definition refLib : Lib :=
  {| Seal := refSeal; Open := refOpen;
     EncodeToString := refEncode; DecodeString := refDecode;
     Marshal := refMarshal; Unmarshal := refUnmarshal |}.

End crypto.

(** ** package storage

    The relational store, as the tables it holds. The statements of the
    package become functions on this state; a failure of the database driver
    itself is outside the model, so the only error left is [ErrNotFound].
    Timestamps ([created_at]) and the audit entry's [meta_json] are left out. *)
Module storage.
Import GoString.

Record Chat := {
  Type_ : string;
  Title : string;
  DefaultPresetName : option string;
}.

Module ProviderInstance.
Record t := {
  ID : Z;
  ChatID : Z;
  Name : string;
  Kind : string;
  BaseURL : string;
  EncAPIKey : option string;
  EncHeadersJSON : option string;
  ConfigJSON : string;
}.
End ProviderInstance.

Module Preset.
Record t := {
  ChatID : Z;
  Name : string;
  ProviderInstanceID : Z;
  Model : string;
  SystemPrompt : string;
  ParamsJSON : string;
}.
End Preset.

Record PresetWithProvider := {
  Preset_ : Preset.t;
  Provider : ProviderInstance.t;
}.

Record AuditEntry := {
  AuditChatID : Z;
  AuditUserID : Z;
  Action : string;
}.

(** [chats] by id, [presets] by their primary key [(chat_id, name)],
    [provider_instances] in insertion order with their surrogate ids. *)
Record Store := {
  chats : gmap Z Chat;
  provider_instances : list ProviderInstance.t;
  presets : gmap (Z * string) Preset.t;
  audit_log : list AuditEntry;
}.

Definition set_chats (s : Store) (c : gmap Z Chat) : Store :=
  {| chats := c; provider_instances := provider_instances s;
     presets := presets s; audit_log := audit_log s |}.

Definition set_presets (s : Store) (p : gmap (Z * string) Preset.t) : Store :=
  {| chats := chats s; provider_instances := provider_instances s;
     presets := p; audit_log := audit_log s |}.

(** INSERT ... ON CONFLICT(id) DO UPDATE SET type, title: the default preset
    of an existing row is kept. *)
Definition EnsureChat (s : Store) (chatID : Z) (chatType title : string) : Store :=
  let chatType := if String.eqb chatType EmptyString then "unknown"%string else chatType in
  let def := match chats s !! chatID with
             | Some c => DefaultPresetName c
             | None => None
             end in
  set_chats s (<[chatID := {| Type_ := chatType; Title := title;
                              DefaultPresetName := def |}]> (chats s)).

Definition GetProviderByName (s : Store) (chatID : Z) (name : string)
  : result ProviderInstance.t :=
  match List.find (fun p => (ProviderInstance.ChatID p =? chatID)
                            && String.eqb (ProviderInstance.Name p) name)
                  (provider_instances s) with
  | Some p => Ok p
  | None => Err ErrNotFound
  end.

Definition UpsertPreset (s : Store) (p : Preset.t) : Store :=
  let p := if String.eqb (Preset.ParamsJSON p) EmptyString
           then {| Preset.ChatID := Preset.ChatID p; Preset.Name := Preset.Name p;
                   Preset.ProviderInstanceID := Preset.ProviderInstanceID p;
                   Preset.Model := Preset.Model p;
                   Preset.SystemPrompt := Preset.SystemPrompt p;
                   Preset.ParamsJSON := "{}" |}
           else p in
  set_presets s (<[(Preset.ChatID p, Preset.Name p) := p]> (presets s)).

(** [ErrNotFound] when no row is affected. *)
Definition DeletePreset (s : Store) (chatID : Z) (name : string) : result Store :=
  match presets s !! (chatID, name) with
  | None => Err ErrNotFound
  | Some _ => Ok (set_presets s (delete (chatID, name) (presets s)))
  end.

(** UPDATE chats SET default_preset_name = name WHERE id = chatID. *)
Definition SetDefaultPreset (s : Store) (chatID : Z) (name : string) : result Store :=
  match chats s !! chatID with
  | None => Err ErrNotFound
  | Some c =>
    Ok (set_chats s (<[chatID := {| Type_ := Type_ c; Title := Title c;
                                    DefaultPresetName := Some name |}]> (chats s)))
  end.

(** UPDATE chats SET default_preset_name = NULL WHERE id = chatID. *)
Definition ClearDefaultPreset (s : Store) (chatID : Z) : Store :=
  match chats s !! chatID with
  | None => s
  | Some c =>
    set_chats s (<[chatID := {| Type_ := Type_ c; Title := Title c;
                                DefaultPresetName := None |}]> (chats s))
  end.

Definition GetDefaultPresetName (s : Store) (chatID : Z) : result string :=
  match chats s !! chatID with
  | None => Err ErrNotFound
  | Some c =>
    match DefaultPresetName c with
    | None => Err ErrNotFound
    | Some name => if blank name then Err ErrNotFound else Ok name
    end
  end.

(** presets p JOIN provider_instances pr ON p.provider_instance_id = pr.id. *)
Definition GetPresetWithProviderByName (s : Store) (chatID : Z) (name : string)
  : result PresetWithProvider :=
  match presets s !! (chatID, name) with
  | None => Err ErrNotFound
  | Some p =>
    match List.find (fun pr => ProviderInstance.ID pr =? Preset.ProviderInstanceID p)
                    (provider_instances s) with
    | None => Err ErrNotFound
    | Some pr => Ok {| Preset_ := p; Provider := pr |}
    end
  end.

Definition GetDefaultPresetWithProvider (s : Store) (chatID : Z)
  : result PresetWithProvider :=
  match chats s !! chatID with
  | None => Err ErrNotFound
  | Some c =>
    match DefaultPresetName c with
    | None => Err ErrNotFound
    | Some name =>
      if blank name then Err ErrNotFound
      else GetPresetWithProviderByName s chatID name
    end
  end.

Definition LogAction (s : Store) (e : AuditEntry) : Store :=
  {| chats := chats s; provider_instances := provider_instances s;
     presets := presets s; audit_log := audit_log s ++ [e] |}.

End storage.

(** ** package queue: the job stream, the rate limiter, the deduplicator *)
Module queue.
Import GoString.

(** [EnqueuedAt] is in nanoseconds, 0 being the zero [time.Time]. [Attempts]
    is an [int]; the only arithmetic on it is the increment under the guard
    [Attempts < maxJobRetries], which cannot overflow. *)
Record AskJob := {
  JobID : string;
  ChatID : Z;
  ChatType : string;
  UserID : Z;
  MessageID : Z;
  Prompt : string;
  PresetName : string;
  EnqueuedAt : Z;
  Attempts : Z;
}.

Definition set_Attempts (j : AskJob) (n : Z) : AskJob :=
  {| JobID := JobID j; ChatID := ChatID j; ChatType := ChatType j;
     UserID := UserID j; MessageID := MessageID j; Prompt := Prompt j;
     PresetName := PresetName j; EnqueuedAt := EnqueuedAt j; Attempts := n |}.

(** An entry of the stream with the id the engine assigned (ids grow). *)
Record Message := {
  ID : Z;
  Job : AskJob;
}.

(** The redis stream with its consumer group: the entries in order, the id
    of the last entry handed to the group, and the pending entries list
    (delivered, not yet acknowledged). The payload of an entry is the job
    itself (its JSON text is not modelled). *)
Record Stream := {
  entries : list Message;
  last_delivered : Z;
  pending : list Z;
  next_id : Z;
}.

(** What [Enqueue] fills in before writing: a fresh job id when it is blank,
    the current time when [EnqueuedAt] is zero. *)
Definition stamp (job : AskJob) (fresh_id : string) (now : Z) : AskJob :=
  {| JobID := if blank (JobID job) then fresh_id else JobID job;
     ChatID := ChatID job; ChatType := ChatType job; UserID := UserID job;
     MessageID := MessageID job; Prompt := Prompt job;
     PresetName := PresetName job;
     EnqueuedAt := if EnqueuedAt job =? 0 then now else EnqueuedAt job;
     Attempts := Attempts job |}.

(** XADD *)
Definition xadd (q : Stream) (job : AskJob) : Z * Stream :=
  (next_id q,
   {| entries := entries q ++ [{| ID := next_id q; Job := job |}];
      last_delivered := last_delivered q; pending := pending q;
      next_id := next_id q + 1 |}).

(** XREADGROUP ... COUNT count STREAMS stream ">" : the entries the group has
    not been handed yet, oldest first; they become pending. *)
Definition xreadgroup (q : Stream) (count : nat) : list Message * Stream :=
  let fresh := List.filter (fun m => last_delivered q <? ID m) (entries q) in
  let got := firstn count fresh in
  (got,
   {| entries := entries q;
      last_delivered := fold_left (fun acc m => Z.max acc (ID m)) got (last_delivered q);
      pending := pending q ++ map ID got;
      next_id := next_id q |}).

(** XACK *)
Definition xack (q : Stream) (id : Z) : Stream :=
  {| entries := entries q; last_delivered := last_delivered q;
     pending := List.filter (fun i => negb (i =? id)) (pending q);
     next_id := next_id q |}.

(** XDEL *)
Definition xdel (q : Stream) (id : Z) : Stream :=
  {| entries := List.filter (fun m => negb (ID m =? id)) (entries q);
     last_delivered := last_delivered q; pending := pending q;
     next_id := next_id q |}.

(** The entries of the stream that carry the job of one telegram message
    (an entry leaves the stream by XDEL). *)
Definition outstanding (q : Stream) (chat msgid : Z) : list Message :=
  List.filter (fun m => (ChatID (Job m) =? chat) && (MessageID (Job m) =? msgid))
              (entries q).

(** *** Rate limiter *)

Definition Hour : Z := 3600 * 1000000000.
Definition Second : Z := 1000000000.

(** [now.UTC().Truncate(time.Hour)]. Times are nanoseconds since the Unix
    epoch; Go rounds down to a multiple of the hour since its zero time, which
    lies a whole number of hours before the epoch. *)
Definition windowStart (now : Z) : Z := now - now mod Hour.
Definition windowEnd (now : Z) : Z := windowStart now + Hour.

(** [int64(windowEnd.Sub(now).Seconds())], at least 1. The duration is at
    most one hour, where the conversion through float64 is exact up to the
    truncation. *)
Definition ttl (now : Z) : Z :=
  let t := (windowEnd now - now) / Second in
  if t <? 1 then 1 else t.

(** The counter key "hyprbot:ratelimit:<chat>:<user>:<yyyymmddhh>" is
    determined by, and determines, the chat, the user and the hour. *)
Definition key (chatID userID now : Z) : Z * Z * Z :=
  (chatID, userID, windowStart now).

(** The counters of the store: value and the time to live given to the key
    when it was created. The expiry itself, an effect of the server's clock,
    is not modelled: a key lives through the hour it counts. *)
Record RateLimiter := {
  limit : Z;
}.

(** The script: INCR, EXPIRE when the result is 1, return the result. *)
Definition incrWithTTLScript (counters : gmap (Z * Z * Z) (Z * Z))
    (k : Z * Z * Z) (ttl : Z) : Z * gmap (Z * Z * Z) (Z * Z) :=
  match counters !! k with
  | None => (1, <[k := (1, ttl)]> counters)
  | Some (c, t) => (c + 1, <[k := (c + 1, t)]> counters)
  end.

Record Verdict := {
  allowed : bool;
  used : Z;
  resetAt : Z;
}.

(** [script_ok] tells whether the store answered. *)
Definition Allow (r : RateLimiter) (counters : gmap (Z * Z * Z) (Z * Z))
    (script_ok : bool) (chatID userID now : Z)
  : result Verdict * gmap (Z * Z * Z) (Z * Z) :=
  let windowEnd := windowEnd now in
  let ttl := ttl now in
  let key := key chatID userID now in
  if script_ok then
    let '(res, counters') := incrWithTTLScript counters key ttl in
    (Ok {| allowed := res <=? limit r; used := res; resetAt := windowEnd |}, counters')
  else (Err (ErrMsg "rate limit script"), counters).

(** A sequence of calls [(chat, user, now)] against the same store, every
    one answered. *)
Fixpoint AllowAll (r : RateLimiter) (counters : gmap (Z * Z * Z) (Z * Z))
    (calls : list (Z * Z * Z)) : list (result Verdict) :=
  match calls with
  | [] => []
  | (chatID, userID, now) :: rest =>
    let '(v, counters') := Allow r counters true chatID userID now in
    v :: AllowAll r counters' rest
  end.

Definition key_of (call : Z * Z * Z) : Z * Z * Z :=
  let '(chatID, userID, now) := call in key chatID userID now.

(** How many of the calls fall on the counter [k]. *)
Definition hits (k : Z * Z * Z) (calls : list (Z * Z * Z)) : nat :=
  length (List.filter (fun call => bool_decide (key_of call = k)) calls).

(** The value of a counter, 0 when the key does not exist. *)
Definition count (counters : gmap (Z * Z * Z) (Z * Z)) (k : Z * Z * Z) : Z :=
  match counters !! k with
  | Some (c, _) => c
  | None => 0
  end.

(** *** Update deduplicator: SET key 1 NX EX ttl (the ttl is not modelled). *)
Definition MarkFirst (seen : gset Z) (store_ok : bool) (updateID : Z)
  : result bool * gset Z :=
  if store_ok then
    if decide (updateID ∈ seen) then (Ok false, seen)
    else (Ok true, {[updateID]} ∪ seen)
  else (Err (ErrMsg "dedupe setnx"), seen).

End queue.

(** ** The world the services run in

    Handlers and workers are state transformers over a [World]: the tables,
    the stream, the counters, the dedupe keys, the admin cache, the metrics,
    and a [trace] of every operation that leaves the process (HTTP requests,
    telegram sends, redis commands, timers), oldest first. What the outside
    answers to the n-th such operation is [env n]: whether it succeeds, the
    HTTP response, whether the context has ended, the clock, the random job
    id. *)
Module Runtime.

Inductive HttpOutcome : Type :=
| DoFailed                                   (* [HTTPClient.Do] returned an error *)
| ReadFailed                                 (* the response body could not be read *)
| Response (status : Z) (text : result string).
                    (* a response, with what the adapter's parser makes of its body *)

Record Answer := {
  http_answer : HttpOutcome;
  op_ok : bool;
  ctx_done : bool;
  random_id : string;
  clock : Z;
  member_status : string;
}.

Inductive Event : Type :=
| EvHTTP (url : string) (outcome : HttpOutcome)
| EvSleep (d : Z) (cancelled : bool)
| EvSend (chat : Z) (text : string) (replyTo : Z) (ok : bool)
| EvXAdd (job : queue.AskJob) (id : option Z)
| EvXReadGroup (got : list queue.Message) (ok : bool)
| EvXAck (id : Z) (ok : bool)
| EvXDel (id : Z) (ok : bool)
| EvIncr (key : Z * Z * Z) (ok : bool)
| EvSetNX (update : Z) (ok : bool)
| EvCacheGet (chat user : Z) (ok : bool)
| EvGetChatMember (chat user : Z) (ok : bool)
| EvCtxErr (done : bool)
| EvDispatch (update : Z).

Record Metrics := {
  EnqueuedJobs : Z;
  ProcessedJobs : Z;
  FailedJobs : Z;
  UpdatesTotal : Z;
}.

Record World := {
  store : storage.Store;
  stream : queue.Stream;
  counters : gmap (Z * Z * Z) (Z * Z);
  seen : gset Z;
  admin_cache : gmap (Z * Z) bool;
  metrics : Metrics;
  trace : list Event;
  env : nat -> Answer;
}.

Definition set_store (w : World) (s : storage.Store) : World :=
  {| store := s; stream := stream w; counters := counters w; seen := seen w;
     admin_cache := admin_cache w; metrics := metrics w; trace := trace w;
     env := env w |}.

Definition set_stream (w : World) (q : queue.Stream) : World :=
  {| store := store w; stream := q; counters := counters w; seen := seen w;
     admin_cache := admin_cache w; metrics := metrics w; trace := trace w;
     env := env w |}.

Definition set_counters (w : World) (c : gmap (Z * Z * Z) (Z * Z)) : World :=
  {| store := store w; stream := stream w; counters := c; seen := seen w;
     admin_cache := admin_cache w; metrics := metrics w; trace := trace w;
     env := env w |}.

Definition set_seen (w : World) (s : gset Z) : World :=
  {| store := store w; stream := stream w; counters := counters w; seen := s;
     admin_cache := admin_cache w; metrics := metrics w; trace := trace w;
     env := env w |}.

Definition set_admin_cache (w : World) (c : gmap (Z * Z) bool) : World :=
  {| store := store w; stream := stream w; counters := counters w; seen := seen w;
     admin_cache := c; metrics := metrics w; trace := trace w; env := env w |}.

Definition set_metrics (w : World) (m : Metrics) : World :=
  {| store := store w; stream := stream w; counters := counters w; seen := seen w;
     admin_cache := admin_cache w; metrics := m; trace := trace w; env := env w |}.

Definition push (w : World) (e : Event) : World :=
  {| store := store w; stream := stream w; counters := counters w; seen := seen w;
     admin_cache := admin_cache w; metrics := metrics w; trace := trace w ++ [e];
     env := env w |}.

(** A world that differs from [w] by new events only. *)
Definition extends (w w' : World) (evs : list Event) : Prop :=
  trace w' = trace w ++ evs /\ store w' = store w /\ stream w' = stream w /\
  counters w' = counters w /\ seen w' = seen w /\ admin_cache w' = admin_cache w /\
  metrics w' = metrics w /\ env w' = env w.

(** The state monad of the services. *)
Definition M (A : Type) : Type := World -> A * World.

Definition ret {A} (a : A) : M A := fun w => (a, w).

Definition bind {A B} (m : M A) (k : A -> M B) : M B :=
  fun w => let '(a, w') := m w in k a w'.

Definition exec {A} (m : M A) (w : World) : World := snd (m w).
Definition eval {A} (m : M A) (w : World) : A := fst (m w).

(** The answer of the outside to the operation about to be made. *)
Definition answer : M Answer := fun w => (env w (length (trace w)), w).

Definition emit (e : Event) : M unit := fun w => (tt, push w e).

Definition get {A} (f : World -> A) : M A := fun w => (f w, w).

Definition modify (f : World -> World) : M unit := fun w => (tt, f w).

End Runtime.

Import Runtime.

Declare Scope go_scope.
Delimit Scope go_scope with go.
Notation "x <- c1 ;; c2" := (bind c1 (fun x => c2))
  (at level 100, c1 at next level, right associativity) : go_scope.
Notation "c1 ;; c2" := (bind c1 (fun _ => c2))
  (at level 100, right associativity) : go_scope.
Local Open Scope go_scope.

(** ** package metrics *)
Module metrics.

Definition IncEnqueued : M unit :=
  modify (fun w => set_metrics w
    {| EnqueuedJobs := EnqueuedJobs (Runtime.metrics w) + 1;
       ProcessedJobs := ProcessedJobs (Runtime.metrics w);
       FailedJobs := FailedJobs (Runtime.metrics w);
       UpdatesTotal := UpdatesTotal (Runtime.metrics w) |}).

Definition IncProcessed : M unit :=
  modify (fun w => set_metrics w
    {| EnqueuedJobs := EnqueuedJobs (Runtime.metrics w);
       ProcessedJobs := ProcessedJobs (Runtime.metrics w) + 1;
       FailedJobs := FailedJobs (Runtime.metrics w);
       UpdatesTotal := UpdatesTotal (Runtime.metrics w) |}).

Definition IncFailed : M unit :=
  modify (fun w => set_metrics w
    {| EnqueuedJobs := EnqueuedJobs (Runtime.metrics w);
       ProcessedJobs := ProcessedJobs (Runtime.metrics w);
       FailedJobs := FailedJobs (Runtime.metrics w) + 1;
       UpdatesTotal := UpdatesTotal (Runtime.metrics w) |}).

Definition IncUpdates : M unit :=
  modify (fun w => set_metrics w
    {| EnqueuedJobs := EnqueuedJobs (Runtime.metrics w);
       ProcessedJobs := ProcessedJobs (Runtime.metrics w);
       FailedJobs := FailedJobs (Runtime.metrics w);
       UpdatesTotal := UpdatesTotal (Runtime.metrics w) + 1 |}).

End metrics.

(** ** The queue and the bot, as operations on the world *)
Module ops.
Import GoString queue.

(** [StreamQueue.Enqueue] *)
Definition Enqueue (job : AskJob) : M (result Z) :=
  a <- answer ;;
  let job := stamp job (random_id a) (clock a) in
  if op_ok a then
    q <- get stream ;;
    let '(id, q') := xadd q job in
    modify (fun w => set_stream w q') ;;
    emit (EvXAdd job (Some id)) ;;
    ret (Ok id)
  else
    emit (EvXAdd job None) ;;
    ret (Err (ErrMsg "enqueue")).

(** [StreamQueue.Read]: an idle timeout ([redis.Nil]) yields no messages and
    no error. *)
Definition Read (count : nat) : M (result (list Message)) :=
  a <- answer ;;
  if op_ok a then
    q <- get stream ;;
    let '(got, q') := xreadgroup q count in
    modify (fun w => set_stream w q') ;;
    emit (EvXReadGroup got true) ;;
    ret (Ok got)
  else
    emit (EvXReadGroup [] false) ;;
    ret (Err (ErrMsg "xreadgroup")).

(** [StreamQueue.Ack]: XACK, then XDEL; the first failure is returned. *)
Definition Ack (messageID : Z) : M (result unit) :=
  a <- answer ;;
  if op_ok a then
    modify (fun w => set_stream w (xack (stream w) messageID)) ;;
    emit (EvXAck messageID true) ;;
    b <- answer ;;
    if op_ok b then
      modify (fun w => set_stream w (xdel (stream w) messageID)) ;;
      emit (EvXDel messageID true) ;;
      ret (Ok tt)
    else
      emit (EvXDel messageID false) ;;
      ret (Err (ErrMsg "xdel"))
  else
    emit (EvXAck messageID false) ;;
    ret (Err (ErrMsg "xack")).

(** The events of an acknowledgement: XACK, and XDEL when XACK went
    through. *)
Definition ack_events (id : Z) (evs : list Event) : Prop :=
  evs = [EvXAck id false] \/ exists ok, evs = [EvXAck id true; EvXDel id ok].

(** [bot.SendMessage(chatID, text, opts)]; [replyTo] is 0 without reply
    parameters. *)
Definition SendMessage (chatID : Z) (text : string) (replyTo : Z) : M (result unit) :=
  a <- answer ;;
  emit (EvSend chatID text replyTo (op_ok a)) ;;
  ret (if op_ok a then Ok tt else Err (ErrMsg "send message")).

(** [ctx.Err() != nil] *)
Definition ctxErr : M bool :=
  a <- answer ;;
  emit (EvCtxErr (ctx_done a)) ;;
  ret (ctx_done a).

End ops.

(** ** package providers and the two adapters *)
Module providers.
Import GoString.

(** [Temperature] (a float64 that is only copied into the request) is left
    out. *)
Record ChatRequest := {
  Model : string;
  SystemPrompt : string;
  UserPrompt : string;
  MaxTokens : Z;
  AllowTools : bool;
}.

(** What is sent: the value that is marshalled (or the rendered template). *)
Inductive Body : Type :=
| ChatCompletionsPayload (req : ChatRequest) (withSystem : bool)
| ResponsesPayload (req : ChatRequest)
| CustomPayload (req : ChatRequest)
| Rendered (text : string).

(** Library calls of the adapters: [http.NewRequestWithContext] (false when
    it fails), [url.Parse] with the path rebuilt ([None] when the base does
    not parse) and [text/template] ([None] when parsing or executing fails). *)
Record Lib := {
  newRequest : string -> string -> bool;
  joinPath : string -> string -> option string;
  executeTemplate : string -> ChatRequest -> string -> option string;
}.

Definition Millisecond : Z := 1000000.

(** A [time.Duration] and an [int] are 64-bit two's complement. *)
Definition wrap64 (z : Z) : Z := (z + 2 ^ 63) mod 2 ^ 64 - 2 ^ 63.
Definition MaxInt64 : Z := 2 ^ 63 - 1.

(** [BackoffBase * (1 << attempt)], both factors of type [time.Duration]. *)
Definition backoff (base attempt : Z) : Z :=
  wrap64 (base * wrap64 (Z.shiftl 1 attempt)).

(** select { case <-ctx.Done(): ...; case <-time.After(d): }: true when the
    context ended first. *)
Definition backoffSelect (d : Z) : M bool :=
  a <- answer ;;
  emit (EvSleep d (ctx_done a)) ;;
  ret (ctx_done a).

(** [HTTPClient.Do(req)] followed by reading the body. *)
Definition httpDo (url : string) : M HttpOutcome :=
  a <- answer ;;
  emit (EvHTTP url (http_answer a)) ;;
  ret (http_answer a).

Definition StatusTooManyRequests : Z := 429.

(** *** The retry policy, as the specification words it

    An attempt is retried on a transport error, on a status of 500 or more
    and on status 429, and on nothing else. *)
Definition retryable (o : HttpOutcome) : bool :=
  match o with
  | DoFailed => true
  | ReadFailed => false
  | Response status _ => (500 <=? status) || (status =? 429)
  end.

(** The runs of one chat call that the policy admits, from attempt number
    [attempt] on: the events of the run and its result. A run ends with a
    success, with a failure that is not retried, with a retryable failure of
    the last attempt ([attempt = maxRetries]), or with the context ending
    during the backoff; otherwise it sleeps [backoff base attempt] and goes
    on with the next attempt. *)
Inductive retry_run (url : string) (base maxRetries : Z)
  : Z -> list Event -> result string -> Prop :=
| run_success attempt status text :
    200 <= status <= 299 ->
    retry_run url base maxRetries attempt
      [EvHTTP url (Response status (Ok text))] (Ok text)
| run_no_retry attempt o e :
    retryable o = false ->
    retry_run url base maxRetries attempt [EvHTTP url o] (Err e)
| run_exhausted o e :
    retryable o = true ->
    retry_run url base maxRetries maxRetries [EvHTTP url o] (Err e)
| run_cancelled attempt o :
    retryable o = true -> attempt <> maxRetries ->
    retry_run url base maxRetries attempt
      [EvHTTP url o; EvSleep (backoff base attempt) true] (Err ErrCanceled)
| run_retry attempt o evs r :
    retryable o = true -> attempt <> maxRetries ->
    retry_run url base maxRetries (attempt + 1) evs r ->
    retry_run url base maxRetries attempt
      (EvHTTP url o :: EvSleep (backoff base attempt) false :: evs) r.

Definition is_http (e : Event) : bool :=
  match e with EvHTTP _ _ => true | _ => false end.

(** The number of HTTP attempts among the events. *)
Definition http_count (evs : list Event) : nat :=
  length (List.filter is_http evs).

(** The backoff durations among the events, in order. *)
Fixpoint sleeps (evs : list Event) : list Z :=
  match evs with
  | [] => []
  | EvSleep d _ :: rest => d :: sleeps rest
  | _ :: rest => sleeps rest
  end.

(** A run in which every attempt fails in a retryable way and the context
    never ends. *)
Definition permanently_failing (evs : list Event) : Prop :=
  Forall (fun e => match e with
                   | EvHTTP _ o => retryable o = true
                   | EvSleep _ cancelled => cancelled = false
                   | _ => True
                   end) evs.

Definition lower (a : ascii) : ascii :=
  let n := N_of_ascii a in
  if ((65 <=? n) && (n <=? 90))%N then ascii_of_N (n + 32) else a.

Fixpoint ToLower (s : string) : string :=
  match s with
  | EmptyString => EmptyString
  | String a r => String (lower a) (ToLower r)
  end.

Definition HasSuffix (s suffix : string) : bool :=
  match crypto.strip_prefix (String.rev suffix) (String.rev s) with
  | Some _ => true
  | None => false
  end.

End providers.

Module openai_compat.
Import GoString providers.

Record Config := {
  BaseURL : string;
  APIKey : string;
  Headers : list (string * string);
  Endpoint : string;
  MaxRetries : Z;
  BackoffBase : Z;
}.

Record Client := { cfg : Config }.

Definition New (c : Config) : Client :=
  {| cfg := {| BaseURL := BaseURL c; APIKey := APIKey c; Headers := Headers c;
               Endpoint := if String.eqb (Endpoint c) EmptyString
                           then "chat_completions"%string else Endpoint c;
               MaxRetries := if MaxRetries c <? 0 then 0 else MaxRetries c;
               BackoffBase := if BackoffBase c <=? 0 then 400 * Millisecond
                              else BackoffBase c |} |}.

Definition isResponsesEndpoint (v : string) : bool :=
  let v := ToLower (TrimSpace v) in
  (String.eqb v "responses" || String.eqb v "/v1/responses")%bool.

Definition buildEndpointURL (L : Lib) (c : Client) : result string :=
  let base := TrimSpace (BaseURL (cfg c)) in
  if String.eqb base EmptyString then Err (ErrMsg "base url is empty")
  else if (HasSuffix base "/chat/completions" || HasSuffix base "/responses")%bool
  then Ok base
  else match joinPath L base (if isResponsesEndpoint (Endpoint (cfg c))
                              then "/responses" else "/chat/completions")%string with
       | None => Err (ErrMsg "parse base url")
       | Some u => Ok u
       end.

Definition buildPayload (L : Lib) (c : Client) (req : ChatRequest)
  : result (Body * string) :=
  match buildEndpointURL L c with
  | Err e => Err e
  | Ok endpointURL =>
    if isResponsesEndpoint (Endpoint (cfg c))
    then Ok (ResponsesPayload req, endpointURL)
    else Ok (ChatCompletionsPayload req (negb (blank (SystemPrompt req))), endpointURL)
  end.

(** Returns the text or the error, and the retry flag. *)
Definition callOnce (L : Lib) (c : Client) (endpointURL : string) (body : Body)
  : M (result string * bool) :=
  if negb (newRequest L "POST" endpointURL)
  then ret (Err (ErrMsg "build request"), false)
  else
    resp <- httpDo endpointURL ;;
    match resp with
    | DoFailed => ret (Err (ErrMsg "request failed"), true)
    | ReadFailed => ret (Err (ErrMsg "read response body"), false)
    | Response StatusCode parsed =>
      if ((500 <=? StatusCode) || (StatusCode =? StatusTooManyRequests))%bool
      then ret (Err (ErrMsg "provider temporary status"), true)
      else if ((StatusCode <? 200) || (299 <? StatusCode))%bool
      then ret (Err (ErrMsg "provider status"), false)
      else match parsed with
           | Err e => ret (Err e, false)
           | Ok text => ret (Ok text, false)
           end
    end.

(** The loop [for attempt := 0; attempt <= MaxRetries; attempt++]; [n] is
    the number of iterations left. *)
Fixpoint attempts (L : Lib) (c : Client) (endpointURL : string) (body : Body)
    (n : nat) (attempt : Z) (lastErr : option error) : M (result string) :=
  match n with
  | O => ret (match lastErr with Some e => Err e | None => Ok EmptyString end)
  | S n' =>
    r <- callOnce L c endpointURL body ;;
    match r with
    | (Ok text, _) => ret (Ok text)
    | (Err err, retry) =>
      if (negb retry || (attempt =? MaxRetries (cfg c)))%bool then ret (Err err)
      else
        cancelled <- backoffSelect (backoff (BackoffBase (cfg c)) attempt) ;;
        if cancelled then ret (Err ErrCanceled)
        else attempts L c endpointURL body n' (attempt + 1) (Some err)
    end
  end.

Definition Chat (L : Lib) (c : Client) (req : ChatRequest) : M (result string) :=
  match buildPayload L c req with
  | Err e => ret (Err e)
  | Ok (body, endpointURL) =>
    attempts L c endpointURL body (Z.to_nat (MaxRetries (cfg c) + 1)) 0 None
  end.

End openai_compat.

Module custom_http.
Import GoString providers.

Record Config := {
  URL : string;
  APIKey : string;
  Headers : list (string * string);
  BodyTemplate : string;
  Method : string;
  MaxRetries : Z;
  BackoffBase : Z;
}.

Record Client := { cfg : Config }.

Definition New (c : Config) : Client :=
  {| cfg := {| URL := URL c; APIKey := APIKey c; Headers := Headers c;
               BodyTemplate := BodyTemplate c;
               Method := if String.eqb (Method c) EmptyString
                         then "POST"%string else Method c;
               MaxRetries := if MaxRetries c <? 0 then 0 else MaxRetries c;
               BackoffBase := if BackoffBase c <=? 0 then 400 * Millisecond
                              else BackoffBase c |} |}.

Definition renderBody (L : Lib) (c : Client) (req : ChatRequest) : result Body :=
  if blank (BodyTemplate (cfg c)) then Ok (CustomPayload req)
  else match executeTemplate L (BodyTemplate (cfg c)) req (APIKey (cfg c)) with
       | None => Err (ErrMsg "body template")
       | Some text => Ok (Rendered text)
       end.

Definition callOnce (L : Lib) (c : Client) (body : Body) : M (result string * bool) :=
  if blank (URL (cfg c)) then ret (Err (ErrMsg "custom http url is empty"), false)
  else if negb (newRequest L (Method (cfg c)) (URL (cfg c)))
  then ret (Err (ErrMsg "build custom request"), false)
  else
    resp <- httpDo (URL (cfg c)) ;;
    match resp with
    | DoFailed => ret (Err (ErrMsg "custom request failed"), true)
    | ReadFailed => ret (Err (ErrMsg "read custom response"), false)
    | Response StatusCode parsed =>
      if ((500 <=? StatusCode) || (StatusCode =? StatusTooManyRequests))%bool
      then ret (Err (ErrMsg "custom provider temporary status"), true)
      else if ((StatusCode <? 200) || (299 <? StatusCode))%bool
      then ret (Err (ErrMsg "custom provider status"), false)
      else match parsed with
           | Err e => ret (Err e, false)
           | Ok text => ret (Ok text, false)
           end
    end.

Fixpoint attempts (L : Lib) (c : Client) (body : Body)
    (n : nat) (attempt : Z) (lastErr : option error) : M (result string) :=
  match n with
  | O => ret (match lastErr with Some e => Err e | None => Ok EmptyString end)
  | S n' =>
    r <- callOnce L c body ;;
    match r with
    | (Ok text, _) => ret (Ok text)
    | (Err err, retry) =>
      if (negb retry || (attempt =? MaxRetries (cfg c)))%bool then ret (Err err)
      else
        cancelled <- backoffSelect (backoff (BackoffBase (cfg c)) attempt) ;;
        if cancelled then ret (Err ErrCanceled)
        else attempts L c body n' (attempt + 1) (Some err)
    end
  end.

Definition Chat (L : Lib) (c : Client) (req : ChatRequest) : M (result string) :=
  match renderBody L c req with
  | Err e => ret (Err e)
  | Ok body => attempts L c body (Z.to_nat (MaxRetries (cfg c) + 1)) 0 None
  end.

End custom_http.

Module registry.
Import providers.

(** The entries of the provider's [config_json] that [Build] reads, each
    present when the key holds a JSON string. *)
Record ProviderCfg := {
  endpoint : option string;
  body_template : option string;
  method : option string;
}.

Record BuildOptions := {
  Kind : string;
  BaseURL : string;
  APIKey : string;
  Headers : list (string * string);
  Config : ProviderCfg;
  MaxRetries : Z;
  BackoffBase : Z;
}.

(** The implementations of the [providers.Provider] interface. *)
Inductive Provider : Type :=
| OpenAICompat (c : openai_compat.Client)
| CustomHTTP (c : custom_http.Client).

Definition Chat (L : Lib) (p : Provider) (req : ChatRequest) : M (result string) :=
  match p with
  | OpenAICompat c => openai_compat.Chat L c req
  | CustomHTTP c => custom_http.Chat L c req
  end.

Definition one_of (s : string) (l : list string) : bool :=
  existsb (String.eqb s) l.

Definition Build (opts : BuildOptions) : result Provider :=
  if one_of (Kind opts) ["openai_compat"; "openai-compatible"; "openai"]%string then
    let endpoint := match endpoint (Config opts) with
                    | Some v => if String.eqb v EmptyString
                                then "chat_completions"%string else v
                    | None => "chat_completions"%string
                    end in
    Ok (OpenAICompat (openai_compat.New
         {| openai_compat.BaseURL := BaseURL opts;
            openai_compat.APIKey := APIKey opts;
            openai_compat.Headers := Headers opts;
            openai_compat.Endpoint := endpoint;
            openai_compat.MaxRetries := MaxRetries opts;
            openai_compat.BackoffBase := BackoffBase opts |}))
  else if one_of (Kind opts) ["custom_http"; "custom-http"]%string then
    let bodyTemplate := default EmptyString (body_template (Config opts)) in
    let method := match method (Config opts) with
                  | Some v => if String.eqb v EmptyString then "POST"%string else v
                  | None => "POST"%string
                  end in
    Ok (CustomHTTP (custom_http.New
         {| custom_http.URL := BaseURL opts;
            custom_http.APIKey := APIKey opts;
            custom_http.Headers := Headers opts;
            custom_http.BodyTemplate := bodyTemplate;
            custom_http.Method := method;
            custom_http.MaxRetries := MaxRetries opts;
            custom_http.BackoffBase := BackoffBase opts |}))
  else Err (ErrMsg "unsupported provider kind").

End registry.

(** ** package worker *)
Module worker.
Import GoString queue ops providers.

Record presetParams := {
  PMaxTokens : Z;
  PAllowTools : bool;
}.

(** The library calls of the worker: the crypto and HTTP libraries and
    [json.Unmarshal] on the headers, on the provider configuration and on the
    preset parameters (the last one returns the parameters as they are left,
    defaults included, whether or not it fails). *)
Record Lib := {
  cryptoLib : crypto.Lib;
  httpLib : providers.Lib;
  parseHeaders : string -> option (list (string * string));
  parseConfig : string -> option registry.ProviderCfg;
  parseParams : string -> presetParams -> presetParams;
}.

Record Worker := {
  crypto_ : crypto.Manager;
  providerRetries : Z;
  backoffBase : Z;
  maxJobRetries : Z;
}.

Record Config := {
  Crypto : crypto.Manager;
  ProviderRetries : Z;
  BackoffBase : Z;
  MaxJobRetries : Z;
}.

Definition New (cfg : Config) : Worker :=
  {| crypto_ := Crypto cfg;
     providerRetries := ProviderRetries cfg;
     backoffBase := if BackoffBase cfg <=? 0 then 400 * Millisecond else BackoffBase cfg;
     maxJobRetries := if MaxJobRetries cfg <? 0 then 0 else MaxJobRetries cfg |}.

Definition resolvePreset (s : storage.Store) (chatID : Z) (presetName : string)
  : result storage.PresetWithProvider :=
  if blank presetName then storage.GetDefaultPresetWithProvider s chatID
  else storage.GetPresetWithProviderByName s chatID presetName.

Definition decryptOptional (L : Lib) (w : Worker) (raw : option string) : result string :=
  match raw with
  | None => Ok EmptyString
  | Some raw =>
    if blank raw then Ok EmptyString
    else crypto.UnmarshalEncryptedString (cryptoLib L) (crypto_ w) raw
  end.

Definition sendError (chatID replyTo : Z) (text : string) : M (result unit) :=
  SendMessage chatID text (if 0 <? replyTo then replyTo else 0).

Definition emptyResponse : string := "Provider returned an empty response.".

(** The reply as it is sent: trimmed, replaced when empty, cut to 4000
    runes. *)
Definition replyText (respText : string) : string :=
  let text := TrimSpace respText in
  let text := if String.eqb text EmptyString then emptyResponse else text in
  if 4000 <? Z.of_nat (length (runes text))
  then string_of_runes (firstn 4000 (runes text))
  else text.

Definition emptyCfg : registry.ProviderCfg :=
  {| registry.endpoint := None; registry.body_template := None;
     registry.method := None |}.

Definition processJob (L : Lib) (w : Worker) (job : AskJob) : M (result unit) :=
  st <- get store ;;
  match resolvePreset st (ChatID job) (PresetName job) with
  | Err err =>
    if is_not_found err then
      sendError (ChatID job) (MessageID job)
        "Preset not found. Configure /ai_default or use /ai <preset>." ;;
      ret (Ok tt)
    else ret (Err err)
  | Ok presetWithProvider =>
    let provider := storage.Provider presetWithProvider in
    let preset := storage.Preset_ presetWithProvider in
    match decryptOptional L w (storage.ProviderInstance.EncAPIKey provider) with
    | Err _ => ret (Err (ErrMsg "decrypt api key"))
    | Ok apiKey =>
    match decryptOptional L w (storage.ProviderInstance.EncHeadersJSON provider) with
    | Err _ => ret (Err (ErrMsg "decrypt headers"))
    | Ok raw =>
    match (if blank raw then Some [] else parseHeaders L raw) with
    | None => ret (Err (ErrMsg "parse headers json"))
    | Some headers =>
    match (if blank (storage.ProviderInstance.ConfigJSON provider) then Some emptyCfg
           else parseConfig L (storage.ProviderInstance.ConfigJSON provider)) with
    | None => ret (Err (ErrMsg "parse provider config"))
    | Some providerCfg =>
    match registry.Build
            {| registry.Kind := storage.ProviderInstance.Kind provider;
               registry.BaseURL := storage.ProviderInstance.BaseURL provider;
               registry.APIKey := apiKey;
               registry.Headers := headers;
               registry.Config := providerCfg;
               registry.MaxRetries := providerRetries w;
               registry.BackoffBase := backoffBase w |} with
    | Err _ => ret (Err (ErrMsg "build provider"))
    | Ok p =>
      let params := {| PMaxTokens := 1024; PAllowTools := false |} in
      let params := if blank (storage.Preset.ParamsJSON preset) then params
                    else parseParams L (TrimSpace (storage.Preset.ParamsJSON preset)) params in
      resp <- registry.Chat (httpLib L) p
                {| Model := storage.Preset.Model preset;
                   SystemPrompt := storage.Preset.SystemPrompt preset;
                   UserPrompt := Prompt job;
                   MaxTokens := PMaxTokens params;
                   AllowTools := PAllowTools params |} ;;
      match resp with
      | Err _ => ret (Err (ErrMsg "provider chat"))
      | Ok respText =>
        sent <- SendMessage (ChatID job) (replyText respText)
                  (if 0 <? MessageID job then MessageID job else 0) ;;
        match sent with
        | Err _ => ret (Err (ErrMsg "send telegram response"))
        | Ok _ => ret (Ok tt)
        end
      end
    end end end end end
  end.

(** The steps of [processJob] up to the call of the provider, as a function
    of the store: the preset is missing, a step fails, or the provider and
    the request are ready. *)
Inductive Prepared : Type :=
| PresetMissing
| Failed (e : error)
| Ready (p : registry.Provider) (req : ChatRequest).

Definition prepare (L : Lib) (w : Worker) (st : storage.Store) (job : AskJob)
  : Prepared :=
  match resolvePreset st (ChatID job) (PresetName job) with
  | Err err => if is_not_found err then PresetMissing else Failed err
  | Ok presetWithProvider =>
    let provider := storage.Provider presetWithProvider in
    let preset := storage.Preset_ presetWithProvider in
    match decryptOptional L w (storage.ProviderInstance.EncAPIKey provider) with
    | Err _ => Failed (ErrMsg "decrypt api key")
    | Ok apiKey =>
    match decryptOptional L w (storage.ProviderInstance.EncHeadersJSON provider) with
    | Err _ => Failed (ErrMsg "decrypt headers")
    | Ok raw =>
    match (if blank raw then Some [] else parseHeaders L raw) with
    | None => Failed (ErrMsg "parse headers json")
    | Some headers =>
    match (if blank (storage.ProviderInstance.ConfigJSON provider) then Some emptyCfg
           else parseConfig L (storage.ProviderInstance.ConfigJSON provider)) with
    | None => Failed (ErrMsg "parse provider config")
    | Some providerCfg =>
    match registry.Build
            {| registry.Kind := storage.ProviderInstance.Kind provider;
               registry.BaseURL := storage.ProviderInstance.BaseURL provider;
               registry.APIKey := apiKey;
               registry.Headers := headers;
               registry.Config := providerCfg;
               registry.MaxRetries := providerRetries w;
               registry.BackoffBase := backoffBase w |} with
    | Err _ => Failed (ErrMsg "build provider")
    | Ok p =>
      let params := {| PMaxTokens := 1024; PAllowTools := false |} in
      let params := if blank (storage.Preset.ParamsJSON preset) then params
                    else parseParams L (TrimSpace (storage.Preset.ParamsJSON preset)) params in
      Ready p {| Model := storage.Preset.Model preset;
                 SystemPrompt := storage.Preset.SystemPrompt preset;
                 UserPrompt := Prompt job;
                 MaxTokens := PMaxTokens params;
                 AllowTools := PAllowTools params |}
    end end end end end
  end.

(** [processJob] from the call of the provider on. *)
Definition callAndReply (L : Lib) (job : AskJob) (p : registry.Provider)
    (req : ChatRequest) : M (result unit) :=
  resp <- registry.Chat (httpLib L) p req ;;
  match resp with
  | Err _ => ret (Err (ErrMsg "provider chat"))
  | Ok respText =>
    sent <- SendMessage (ChatID job) (replyText respText)
              (if 0 <? MessageID job then MessageID job else 0) ;;
    match sent with
    | Err _ => ret (Err (ErrMsg "send telegram response"))
    | Ok _ => ret (Ok tt)
    end
  end.

Definition terminalError : string := "LLM provider error. Please try again later.".

(** The body of [for _, msg := range messages] in [consumeLoop]; what is
    only logged is dropped. *)
Definition handleMessage (L : Lib) (w : Worker) (msg : Message) : M unit :=
  err <- processJob L w (Job msg) ;;
  match err with
  | Ok _ =>
    metrics.IncProcessed ;;
    Ack (ID msg) ;;
    ret tt
  | Err _ =>
    metrics.IncFailed ;;
    if Attempts (Job msg) <? maxJobRetries w then
      let job := set_Attempts (Job msg) (Attempts (Job msg) + 1) in
      enq <- Enqueue job ;;
      match enq with
      | Err _ => ret tt
      | Ok _ => Ack (ID msg) ;; ret tt
      end
    else
      sendError (ChatID (Job msg)) (MessageID (Job msg)) terminalError ;;
      Ack (ID msg) ;;
      ret tt
  end.

Fixpoint handleAll (L : Lib) (w : Worker) (messages : list Message) : M unit :=
  match messages with
  | [] => ret tt
  | msg :: rest => handleMessage L w msg ;; handleAll L w rest
  end.

(** [consumeLoop]; the loop runs until the context ends, [fuel] bounds the
    number of iterations that are followed. *)
Fixpoint consumeLoop (L : Lib) (w : Worker) (fuel : nat) : M unit :=
  match fuel with
  | O => ret tt
  | S fuel' =>
    done <- ctxErr ;;
    if done then ret tt else
    r <- Read 1 ;;
    match r with
    | Err _ =>
      done <- ctxErr ;;
      if done then ret tt
      else emit (EvSleep Second false) ;; consumeLoop L w fuel'
    | Ok messages => handleAll L w messages ;; consumeLoop L w fuel'
    end
  end.

(** *** What a run of the worker shows from outside

    The events of a trace that matter for the life of a job, in order: an
    entry handed to the worker by XREADGROUP, an HTTP request to the
    provider, an entry written by XADD, a message sent to the chat, an
    entry acknowledged by XACK. *)
Inductive Step : Type :=
| Delivered (id attempts : Z)
| Attempt
| Requeued (id attempts : Z)
| Replied (text : string)
| Acked (id : Z).

Definition step_of (e : Event) : list Step :=
  match e with
  | EvXReadGroup got _ => map (fun m => Delivered (ID m) (Attempts (Job m))) got
  | EvHTTP _ _ => [Attempt]
  | EvXAdd job (Some id) => [Requeued id (Attempts job)]
  | EvSend _ text _ _ => [Replied text]
  | EvXAck id true => [Acked id]
  | _ => []
  end.

Definition timeline (evs : list Event) : list Step := flat_map step_of evs.

End worker.

(** ** package telegram (ingress) *)
Module telegram.
Import GoString queue ops.

Record ChatInfo := {
  Id : Z;
  Type_ : string;
  Title : string;
}.

Record User := { UserId : Z }.

Record MessageInfo := {
  MessageId : Z;
  Chat : ChatInfo;
  Text : string;
}.

(** [ext.Context], the parts the handlers read. *)
Record Context := {
  UpdateId : Z;
  EffectiveChat : option ChatInfo;
  EffectiveUser : option User;
  EffectiveMessage : option MessageInfo;
}.

Record UpdateDeduplicator := { dedupe_ttl : Z }.

Definition MarkFirst (updateID : Z) : M (result bool) :=
  a <- answer ;;
  seen <- get seen ;;
  let '(r, seen') := queue.MarkFirst seen (op_ok a) updateID in
  modify (fun w => set_seen w seen') ;;
  emit (EvSetNX updateID (op_ok a)) ;;
  ret r.

(** The processor of the dispatcher: the base processor (which runs the
    handlers), the deduplicator and the metrics, the last two optional. *)
Record Processor := {
  Base : Context -> M unit;
  Dedupe : option UpdateDeduplicator;
  Metrics : bool;
}.

Definition ProcessUpdate (p : Processor) (ctx : Context) : M unit :=
  (if Metrics p then metrics.IncUpdates else ret tt) ;;
  match Dedupe p with
  | Some _ =>
    r <- MarkFirst (UpdateId ctx) ;;
    match r with
    | Err _ => Base p ctx
    | Ok first => if negb first then ret tt else Base p ctx
    end
  | None => Base p ctx
  end.

(** *** main: how the ingress is wired *)
Definition AccessModePublic : string := "public".
Definition AccessModePrivate : string := "private".

Record Config := {
  BotAccessMode : string;
  AdminUserID : Z;
  RatePerHour : Z;
  UpdateTTL : Z;
}.

(** [allowedUserID] as [main] computes it. *)
Definition allowedUserID (cfg : Config) : Z :=
  if String.eqb (BotAccessMode cfg) AccessModePrivate then AdminUserID cfg else 0.

(** The processor [main] hands to the dispatcher. [main] also names a field
    [AllowedUserID: allowedUserID]; the [Processor] type has no such field and
    [ProcessUpdate] reads none. *)
Definition mainProcessor (cfg : Config) (base : Context -> M unit) : Processor :=
  {| Base := base;
     Dedupe := Some {| dedupe_ttl := UpdateTTL cfg |};
     Metrics := true |}.

(** *** The service and its handlers *)
Record Service := {
  rateLimiter : option RateLimiter;
  accessMode : string;
  adminUserID : Z;
}.

Definition NewService (cfg : Config) : Service :=
  {| rateLimiter := Some {| limit := RatePerHour cfg |};
     accessMode := BotAccessMode cfg;
     adminUserID := AdminUserID cfg |}.

Definition userID (ctx : Context) : Z :=
  match EffectiveUser ctx with
  | None => 0
  | Some u => UserId u
  end.

Definition reply (ctx : Context) (text : string) : M unit :=
  match EffectiveChat ctx with
  | None => ret tt
  | Some chat => SendMessage (Id chat) text 0 ;; ret tt
  end.

(** Splits at the first space: what precedes it and what follows it. *)
Fixpoint cut_space (s : string) : option (string * string) :=
  match s with
  | EmptyString => None
  | String a r =>
    if Ascii.eqb a " " then Some (EmptyString, r)
    else match cut_space r with
         | Some (x, y) => Some (String a x, y)
         | None => None
         end
  end.

Definition commandRemainder (text : string) : string :=
  match cut_space (TrimSpace text) with
  | None => EmptyString
  | Some (_, rest) => rest
  end.

Definition splitFirstWord (s : string) : string * string :=
  let s := TrimSpace s in
  if String.eqb s EmptyString then (EmptyString, EmptyString)
  else match cut_space s with
       | None => (s, EmptyString)
       | Some (first, rest) => (first, TrimSpace rest)
       end.

Definition digit (d : Z) : ascii := ascii_of_N (Z.to_N (48 + d)).

Definition two_digits (n : Z) : string :=
  String (digit (n / 10)) (String (digit (n mod 10)) EmptyString).

Definition Minute : Z := 60 * Second.

(** [t.Format("15:04 UTC")] for a UTC time. *)
Definition formatHHMM (t : Z) : string :=
  two_digits ((t / Hour) mod 24) +:+ ":" +:+ two_digits ((t mod Hour) / Minute) +:+ " UTC".

(** [RateLimiter.Allow] against the counters of the world, at [s.now()]. *)
Definition rateAllow (r : RateLimiter) (chatID userID : Z) : M (result Verdict) :=
  a <- answer ;;
  c <- get counters ;;
  let '(v, c') := Allow r c (op_ok a) chatID userID (clock a) in
  modify (fun w => set_counters w c') ;;
  emit (EvIncr (key chatID userID (clock a)) (op_ok a)) ;;
  ret v.

Definition allowRate (s : Service) (chatID userID : Z) (ctx : Context) : M bool :=
  match rateLimiter s with
  | None => ret true
  | Some limiter =>
    if userID =? 0 then ret true
    else
      v <- rateAllow limiter chatID userID ;;
      match v with
      | Err _ => ret true
      | Ok v =>
        if allowed v then ret true
        else
          reply ctx ("Rate limit exceeded. Try again after " +:+ formatHHMM (resetAt v)) ;;
          ret false
      end
  end.

Definition ensureChat (msg : MessageInfo) : M unit :=
  modify (fun w => set_store w
    (storage.EnsureChat (store w) (Id (Chat msg)) (Type_ (Chat msg)) (Title (Chat msg)))).

Definition enqueueJob (ctx : Context) (job : AskJob) : M unit :=
  r <- Enqueue job ;;
  match r with
  | Err _ => reply ctx "Queue is unavailable right now."
  | Ok _ => metrics.IncEnqueued ;; reply ctx "Accepted. Processing in queue."
  end.

Definition ask (s : Service) (ctx : Context) : M unit :=
  match EffectiveMessage ctx, EffectiveChat ctx with
  | Some msg, Some chat =>
    let prompt := TrimSpace (commandRemainder (Text msg)) in
    if String.eqb prompt EmptyString then reply ctx "Usage: /ask <text>"
    else
      ok <- allowRate s (Id chat) (userID ctx) ctx ;;
      if negb ok then ret tt
      else
        ensureChat msg ;;
        enqueueJob ctx
          {| JobID := EmptyString; ChatID := Id chat; ChatType := Type_ chat;
             UserID := userID ctx; MessageID := MessageId msg; Prompt := prompt;
             PresetName := EmptyString; EnqueuedAt := 0; Attempts := 0 |}
  | _, _ => ret tt
  end.

Definition ai (s : Service) (ctx : Context) : M unit :=
  match EffectiveMessage ctx, EffectiveChat ctx with
  | Some msg, Some chat =>
    let rest := TrimSpace (commandRemainder (Text msg)) in
    let '(preset, prompt) := splitFirstWord rest in
    if (String.eqb preset EmptyString || String.eqb prompt EmptyString)%bool
    then reply ctx "Usage: /ai <preset> <text>"
    else
      ok <- allowRate s (Id chat) (userID ctx) ctx ;;
      if negb ok then ret tt
      else
        ensureChat msg ;;
        enqueueJob ctx
          {| JobID := EmptyString; ChatID := Id chat; ChatType := Type_ chat;
             UserID := userID ctx; MessageID := MessageId msg; Prompt := prompt;
             PresetName := preset; EnqueuedAt := 0; Attempts := 0 |}
  | _, _ => ret tt
  end.

(** The admin cache in redis (its ttl is not modelled), then the platform.
    The durable hint table written at the end is not part of the model. *)
Definition isAdmin (chatID userID : Z) : M (result bool) :=
  a <- answer ;;
  emit (EvCacheGet chatID userID (op_ok a)) ;;
  cache <- get admin_cache ;;
  match (if op_ok a then cache !! (chatID, userID) else None) with
  | Some v => ret (Ok v)
  | None =>
    b <- answer ;;
    emit (EvGetChatMember chatID userID (op_ok b)) ;;
    if op_ok b then
      let status := member_status b in
      let admin := (String.eqb status "administrator" || String.eqb status "creator")%bool in
      modify (fun w => set_admin_cache w (<[(chatID, userID) := admin]> (admin_cache w))) ;;
      ret (Ok admin)
    else ret (Err (ErrMsg "get chat member"))
  end.

(** Returns the chat id and the user id when the caller may proceed. *)
Definition requireAdmin (ctx : Context) : M (option (Z * Z)) :=
  match EffectiveChat ctx, EffectiveUser ctx with
  | Some chat, Some user =>
    if String.eqb (Type_ chat) "private" then
      reply ctx "Run this command in group/supergroup." ;;
      ret None
    else
      r <- isAdmin (Id chat) (UserId user) ;;
      match r with
      | Err _ => reply ctx "Failed to verify admin rights." ;; ret None
      | Ok admin =>
        if negb admin then
          reply ctx "Only chat admins can run this command." ;; ret None
        else
          match EffectiveMessage ctx with
          | Some msg => ensureChat msg
          | None => ret tt
          end ;;
          ret (Some (Id chat, UserId user))
      end
  | _, _ => ret None
  end.

Definition audit (chatID userID : Z) (action : string) : M unit :=
  modify (fun w => set_store w
    (storage.LogAction (store w)
       {| storage.AuditChatID := chatID; storage.AuditUserID := userID;
          storage.Action := action |})).

Definition defaultParams : string :=
  "{" +:+ crypto.q +:+ "max_tokens" +:+ crypto.q +:+ ":1024," +:+
  crypto.q +:+ "temperature" +:+ crypto.q +:+ ":0.7," +:+
  crypto.q +:+ "allow_tools" +:+ crypto.q +:+ ":false}".

Definition aiPresetAdd (s : Service) (ctx : Context) : M unit :=
  adm <- requireAdmin ctx ;;
  match adm with
  | None => ret tt
  | Some (chatID, userID) =>
    match EffectiveMessage ctx with
    | None => ret tt
    | Some msg =>
      let rem := TrimSpace (commandRemainder (Text msg)) in
      let '(name, rem) := splitFirstWord rem in
      let '(providerName, rem) := splitFirstWord rem in
      let '(model, systemPrompt) := splitFirstWord rem in
      let systemPrompt := TrimSpace systemPrompt in
      if (String.eqb name EmptyString || String.eqb providerName EmptyString
          || String.eqb model EmptyString || String.eqb systemPrompt EmptyString)%bool
      then reply ctx "Usage: /ai_preset_add <name> <provider> <model> <system_prompt...>"
      else
        st <- get store ;;
        match storage.GetProviderByName st chatID providerName with
        | Err err =>
          if is_not_found err then reply ctx "Provider not found."
          else reply ctx "Failed to read provider."
        | Ok provider =>
          modify (fun w => set_store w (storage.UpsertPreset (store w)
            {| storage.Preset.ChatID := chatID;
               storage.Preset.Name := name;
               storage.Preset.ProviderInstanceID := storage.ProviderInstance.ID provider;
               storage.Preset.Model := model;
               storage.Preset.SystemPrompt := systemPrompt;
               storage.Preset.ParamsJSON := defaultParams |})) ;;
          st <- get store ;;
          match storage.GetDefaultPresetName st chatID with
          | Err err =>
            if is_not_found err then
              match storage.SetDefaultPreset st chatID name with
              | Ok st' => modify (fun w => set_store w st')
              | Err _ => ret tt
              end
            else ret tt
          | Ok _ => ret tt
          end ;;
          audit chatID userID "preset_add" ;;
          reply ctx "Preset saved."
        end
    end
  end.

Definition aiPresetDel (s : Service) (ctx : Context) : M unit :=
  adm <- requireAdmin ctx ;;
  match adm with
  | None => ret tt
  | Some (chatID, userID) =>
    let name := TrimSpace (commandRemainder
                  (match EffectiveMessage ctx with
                   | Some msg => Text msg
                   | None => EmptyString
                   end)) in
    if String.eqb name EmptyString then reply ctx "Usage: /ai_preset_del <name>"
    else
      st <- get store ;;
      match storage.DeletePreset st chatID name with
      | Err err =>
        if is_not_found err then reply ctx "Preset not found."
        else reply ctx "Failed to delete preset."
      | Ok st' =>
        modify (fun w => set_store w st') ;;
        match storage.GetDefaultPresetName st' chatID with
        | Ok def =>
          if String.eqb def name
          then modify (fun w => set_store w (storage.ClearDefaultPreset (store w) chatID))
          else ret tt
        | Err _ => ret tt
        end ;;
        audit chatID userID "preset_del" ;;
        reply ctx "Preset deleted."
      end
  end.

(** The base processor with the handlers of [Register] that the model
    covers: the handler of the command the message starts with runs. *)
Definition dispatch (s : Service) (ctx : Context) : M unit :=
  emit (EvDispatch (UpdateId ctx)) ;;
  match EffectiveMessage ctx with
  | None => ret tt
  | Some msg =>
    let '(cmd, _) := splitFirstWord (Text msg) in
    if String.eqb cmd "/ask" then ask s ctx
    else if String.eqb cmd "/ai" then ai s ctx
    else if String.eqb cmd "/ai_preset_add" then aiPresetAdd s ctx
    else if String.eqb cmd "/ai_preset_del" then aiPresetDel s ctx
    else ret tt
  end.

End telegram.

(** ** Concrete instances, used to run the model *)
Module Reference.
Import GoString.

Definition refHttp : providers.Lib :=
  {| providers.newRequest := fun _ _ => true;
     providers.joinPath := fun base suffix => Some (base +:+ suffix);
     providers.executeTemplate := fun tpl _ _ => Some tpl |}.

Definition refWorkerLib : worker.Lib :=
  {| worker.cryptoLib := crypto.refLib;
     worker.httpLib := refHttp;
     worker.parseHeaders := fun _ => Some [];
     worker.parseConfig := fun _ => Some worker.emptyCfg;
     worker.parseParams := fun _ p => p |}.

(** An outside in which every operation succeeds, the context never ends
    and the provider answers [http] to every request. *)
Definition answering (http : HttpOutcome) : Answer :=
  {| http_answer := http; op_ok := true; ctx_done := false;
     random_id := "00000000deadbeef"; clock := 1770977700 * queue.Second;
     member_status := "administrator" |}.

Definition always503 : nat -> Answer :=
  fun _ => answering (Response 503 (Err (ErrMsg "unavailable"))).

(** Every outside in which each operation succeeds, the context never ends
    and the provider answers status 503 to every request: the response
    bodies, the random ids and the clock are arbitrary. *)
Definition failing503 (body : nat -> result string) (id : nat -> string)
    (now : nat -> Z) : nat -> Answer :=
  fun n => {| http_answer := Response 503 (body n); op_ok := true;
              ctx_done := false; random_id := id n; clock := now n;
              member_status := "administrator" |}.

Definition key32 : string := "0123456789abcdef0123456789abcdef".

(** A key id that is not valid UTF-8: the single byte 0xFF. *)
Definition badKeyID : string := String (ascii_of_nat 255) EmptyString.

Definition manager : crypto.Manager :=
  {| crypto.currentKeyID := "k1"; crypto.keys := {[ "k1"%string := key32 ]} |}.

Definition provider111 : storage.ProviderInstance.t :=
  {| storage.ProviderInstance.ID := 1;
     storage.ProviderInstance.ChatID := 111;
     storage.ProviderInstance.Name := "p";
     storage.ProviderInstance.Kind := "openai_compat";
     storage.ProviderInstance.BaseURL := "https://api.example/v1";
     storage.ProviderInstance.EncAPIKey := None;
     storage.ProviderInstance.EncHeadersJSON := None;
     storage.ProviderInstance.ConfigJSON := "{}" |}.

Definition preset111 : storage.Preset.t :=
  {| storage.Preset.ChatID := 111;
     storage.Preset.Name := "grok_default";
     storage.Preset.ProviderInstanceID := 1;
     storage.Preset.Model := "m";
     storage.Preset.SystemPrompt := "sys";
     storage.Preset.ParamsJSON := "{}" |}.

Definition store111 : storage.Store :=
  {| storage.chats :=
       {[ 111 := {| storage.Type_ := "group"; storage.Title := "chat";
                    storage.DefaultPresetName := Some "grok_default"%string |} ]};
     storage.provider_instances := [provider111];
     storage.presets := {[ (111, "grok_default"%string) := preset111 ]};
     storage.audit_log := [] |}.

(** The same chat before any default preset was chosen. *)
Definition store111_no_default : storage.Store :=
  {| storage.chats :=
       {[ 111 := {| storage.Type_ := "group"; storage.Title := "chat";
                    storage.DefaultPresetName := None |} ]};
     storage.provider_instances := [provider111];
     storage.presets := ∅;
     storage.audit_log := [] |}.

Definition job55 : queue.AskJob :=
  {| queue.JobID := "a1b2c3d4e5f60718"; queue.ChatID := 111;
     queue.ChatType := "group"; queue.UserID := 7; queue.MessageID := 55;
     queue.Prompt := "hello"; queue.PresetName := EmptyString;
     queue.EnqueuedAt := 1770977000 * queue.Second; queue.Attempts := 0 |}.

Definition stream1 : queue.Stream :=
  {| queue.entries := [ {| queue.ID := 1; queue.Job := job55 |} ];
     queue.last_delivered := 0; queue.pending := []; queue.next_id := 2 |}.

Definition noMetrics : Metrics :=
  {| EnqueuedJobs := 0; ProcessedJobs := 0; FailedJobs := 0; UpdatesTotal := 0 |}.

Definition world (s : storage.Store) (q : queue.Stream) (e : nat -> Answer) : World :=
  {| store := s; stream := q; counters := ∅; seen := ∅; admin_cache := ∅;
     metrics := noMetrics; trace := []; env := e |}.

(** A private deployment whose admin is user 42, and an update of user 7. *)
Definition privateCfg : telegram.Config :=
  {| telegram.BotAccessMode := "private"; telegram.AdminUserID := 42;
     telegram.RatePerHour := 30; telegram.UpdateTTL := 6 * queue.Hour |}.

Definition chat111 : telegram.ChatInfo :=
  {| telegram.Id := 111; telegram.Type_ := "group"; telegram.Title := "chat" |}.

Definition update (id user : Z) (text : string) : telegram.Context :=
  {| telegram.UpdateId := id;
     telegram.EffectiveChat := Some chat111;
     telegram.EffectiveUser := Some {| telegram.UserId := user |};
     telegram.EffectiveMessage :=
       Some {| telegram.MessageId := 55; telegram.Chat := chat111;
               telegram.Text := text |} |}.

(** The same update without an effective user. *)
Definition anonymous (id : Z) (text : string) : telegram.Context :=
  {| telegram.UpdateId := id;
     telegram.EffectiveChat := Some chat111;
     telegram.EffectiveUser := None;
     telegram.EffectiveMessage :=
       Some {| telegram.MessageId := 55; telegram.Chat := chat111;
               telegram.Text := text |} |}.

Definition emptyStream : queue.Stream :=
  {| queue.entries := []; queue.last_delivered := 0; queue.pending := [];
     queue.next_id := 1 |}.

Definition allOk : nat -> Answer :=
  fun _ => answering (Response 200 (Ok "Hi!"%string)).

Definition openaiCfg : openai_compat.Config :=
  {| openai_compat.BaseURL := "https://api.example/v1";
     openai_compat.APIKey := EmptyString;
     openai_compat.Headers := [];
     openai_compat.Endpoint := "chat_completions";
     openai_compat.MaxRetries := 2;
     openai_compat.BackoffBase := 400 * providers.Millisecond |}.

Definition chatReq : providers.ChatRequest :=
  {| providers.Model := "m"; providers.SystemPrompt := "sys";
     providers.UserPrompt := "hello"; providers.MaxTokens := 1024;
     providers.AllowTools := false |}.

(** [n] copies of U+00E9 (two bytes each). *)
Fixpoint accents (n : nat) : string :=
  match n with
  | O => EmptyString
  | S n' => String (ascii_of_nat 195) (String (ascii_of_nat 169) (accents n'))
  end.

(** The job of message 55 once a consumer has read it. *)
Definition delivered : World :=
  exec (ops.Read 1) (world store111 stream1 always503).

Definition message1 : queue.Message := {| queue.ID := 1; queue.Job := job55 |}.

(** The worker of the retry scenario: adapter retries 2, job retries 3. *)
Definition worker23 : worker.Worker :=
  worker.New {| worker.Crypto := manager; worker.ProviderRetries := 2;
                worker.BackoffBase := 400 * providers.Millisecond;
                worker.MaxJobRetries := 3 |}.

End Reference.

(** * Lemmas and theorems *)

Import GoString.

(** ** Go strings: bytes, runes and their conversions *)

Lemma string_of_bytes_of (s : string) : string_of_bytes (bytes_of s) = s.
Proof.
  unfold string_of_bytes, bytes_of.
  induction s as [|a s IH]; simpl; [reflexivity|].
  rewrite N2Z.id, ascii_N_embedding. f_equal. exact IH.
Qed.

Lemma bytes_of_string_of_bytes (l : list Z) :
  Forall is_byte l -> bytes_of (string_of_bytes l) = l.
Proof.
  unfold string_of_bytes, bytes_of.
  induction 1 as [|b l Hb _ IH]; simpl; [reflexivity|].
  rewrite N_ascii_embedding by (unfold is_byte in Hb; lia).
  rewrite Z2N.id by (unfold is_byte in Hb; lia).
  f_equal. exact IH.
Qed.

Lemma scalar_spec r :
  scalar r = true <-> (0 <= r <= 0x10FFFF /\ ~ (0xD800 <= r <= 0xDFFF)).
Proof.
  unfold scalar. rewrite !andb_true_iff, negb_true_iff, andb_false_iff.
  rewrite !Z.leb_le, !Z.leb_gt. lia.
Qed.

(** The digits of a rune in base 64. *)
Lemma base64_digits r :
  0 <= r ->
  exists a b c d,
    r = a * 262144 + b * 4096 + c * 64 + d /\
    0 <= a /\ 0 <= b < 64 /\ 0 <= c < 64 /\ 0 <= d < 64 /\
    r mod 64 = d /\ r / 64 = a * 4096 + b * 64 + c /\
    (r / 64) mod 64 = c /\ r / 4096 = a * 64 + b /\
    (r / 4096) mod 64 = b /\ r / 262144 = a.
Proof.
  intros Hr.
  exists (r / 262144), ((r / 4096) mod 64), ((r / 64) mod 64), (r mod 64).
  assert (H1 : r / 4096 = r / 64 / 64) by (rewrite Z.div_div by lia; reflexivity).
  assert (H2 : r / 262144 = r / 4096 / 64) by (rewrite Z.div_div by lia; reflexivity).
  pose proof (Z.div_mod r 64 ltac:(lia)) as E1.
  pose proof (Z.div_mod (r / 64) 64 ltac:(lia)) as E2.
  pose proof (Z.div_mod (r / 4096) 64 ltac:(lia)) as E3.
  pose proof (Z.mod_pos_bound r 64 ltac:(lia)).
  pose proof (Z.mod_pos_bound (r / 64) 64 ltac:(lia)).
  pose proof (Z.mod_pos_bound (r / 4096) 64 ltac:(lia)).
  assert (0 <= r / 262144) by (apply Z.div_pos; lia).
  rewrite <- H1 in E2. rewrite <- H2 in E3.
  repeat split; try lia.
Qed.

Lemma lead2_bounds b0 : lead2 b0 = true -> 0xC2 <= b0 <= 0xDF.
Proof. unfold lead2. rewrite andb_true_iff, !Z.leb_le. lia. Qed.

Lemma lead3_bounds b0 b1 : lead3 b0 b1 = true -> 0xE0 <= b0 <= 0xEF.
Proof. unfold lead3. rewrite !andb_true_iff, !Z.leb_le. lia. Qed.

Lemma lead4_bounds b0 b1 : lead4 b0 b1 = true -> 0xF0 <= b0 <= 0xF4.
Proof. unfold lead4. rewrite !andb_true_iff, !Z.leb_le. lia. Qed.

Lemma lead2_false b0 : 0xE0 <= b0 -> lead2 b0 = false.
Proof. intros. unfold lead2. rewrite andb_false_iff, !Z.leb_gt. lia. Qed.

Lemma lead3_false b0 b1 : 0xF0 <= b0 -> lead3 b0 b1 = false.
Proof.
  intros. unfold lead3.
  rewrite (proj2 (Z.leb_gt b0 0xEF)) by lia.
  rewrite andb_false_r. reflexivity.
Qed.

Lemma not_ascii b0 : 0x80 <= b0 -> (0 <=? b0) && (b0 <? 0x80) = false.
Proof. intros. rewrite andb_false_iff, Z.leb_gt, Z.ltb_ge. lia. Qed.

Lemma decode_1 b0 t :
  0 <= b0 < 0x80 -> decode (b0 :: t) = b0 :: decode t.
Proof.
  intros. cbn [decode].
  rewrite (proj2 (Z.leb_le 0 b0)), (proj2 (Z.ltb_lt b0 0x80)) by lia.
  reflexivity.
Qed.

Lemma decode_2 b0 b1 t :
  lead2 b0 = true -> cont b1 = true ->
  decode (b0 :: b1 :: t) = ((b0 - 0xC0) * 64 + (b1 - 0x80)) :: decode t.
Proof.
  intros H0 H1. cbn [decode].
  rewrite (not_ascii b0) by (apply lead2_bounds in H0; lia).
  rewrite H0, H1. reflexivity.
Qed.

Lemma decode_3 b0 b1 b2 t :
  lead3 b0 b1 = true -> cont b2 = true ->
  decode (b0 :: b1 :: b2 :: t)
  = ((b0 - 0xE0) * 4096 + (b1 - 0x80) * 64 + (b2 - 0x80)) :: decode t.
Proof.
  intros H0 H2. cbn [decode].
  pose proof (lead3_bounds _ _ H0).
  rewrite (not_ascii b0) by lia. rewrite (lead2_false b0) by lia.
  rewrite H0, H2. reflexivity.
Qed.

Lemma decode_4 b0 b1 b2 b3 t :
  lead4 b0 b1 = true -> cont b2 = true -> cont b3 = true ->
  decode (b0 :: b1 :: b2 :: b3 :: t)
  = ((b0 - 0xF0) * 262144 + (b1 - 0x80) * 4096 + (b2 - 0x80) * 64 + (b3 - 0x80))
    :: decode t.
Proof.
  intros H0 H2 H3. cbn [decode].
  pose proof (lead4_bounds _ _ H0).
  rewrite (not_ascii b0) by lia. rewrite (lead2_false b0) by lia.
  rewrite (lead3_false b0 b1) by lia.
  rewrite H0, H2, H3. reflexivity.
Qed.

Lemma cont_digit c : 0 <= c < 64 -> cont (0x80 + c) = true.
Proof. intros. unfold cont. rewrite andb_true_iff, !Z.leb_le. lia. Qed.

Lemma lead2_digit c : 2 <= c < 32 -> lead2 (0xC0 + c) = true.
Proof. intros. unfold lead2. rewrite andb_true_iff, !Z.leb_le. lia. Qed.

Lemma lead3_digit b c :
  0 <= b < 16 -> 0 <= c < 64 -> (b = 0 -> 32 <= c) -> (b = 13 -> c < 32) ->
  lead3 (0xE0 + b) (0x80 + c) = true.
Proof.
  intros Hb Hc H0 H13. unfold lead3.
  destruct (Z.eqb_spec (0xE0 + b) 0xE0); destruct (Z.eqb_spec (0xE0 + b) 0xED);
    cbv iota; rewrite !andb_true_iff, !Z.leb_le. all: lia.
Qed.

Lemma lead4_digit a b :
  0 <= a <= 4 -> 0 <= b < 64 -> (a = 0 -> 16 <= b) -> (a = 4 -> b < 16) ->
  lead4 (0xF0 + a) (0x80 + b) = true.
Proof.
  intros Ha Hb H0 H4. unfold lead4.
  destruct (Z.eqb_spec (0xF0 + a) 0xF0); destruct (Z.eqb_spec (0xF0 + a) 0xF4);
    cbv iota; rewrite !andb_true_iff, !Z.leb_le; lia.
Qed.

Lemma decode_encode_rune r rest :
  scalar r = true -> decode (encode_rune r ++ rest) = r :: decode rest.
Proof.
  intros Hs. unfold encode_rune. rewrite Hs. cbn [negb].
  apply scalar_spec in Hs. destruct Hs as [Hr Hsur].
  destruct (base64_digits r ltac:(lia))
    as (a & b & c & d & E & Ha & Hb & Hc & Hd & M0 & D1 & M1 & D2 & M2 & D3).
  rewrite M0, M1, M2, D1, D2, D3. clear M0 M1 M2 D1 D2 D3.
  destruct (Z.ltb_spec r 0x80).
  { cbn [app]. rewrite decode_1 by lia. reflexivity. }
  destruct (Z.ltb_spec r 0x800).
  { assert (a = 0 /\ b = 0 /\ 2 <= c < 32) as (-> & -> & Hc2) by lia.
    cbn [app]. rewrite decode_2 by (first [apply lead2_digit | apply cont_digit]; lia).
    f_equal. lia. }
  destruct (Z.ltb_spec r 0x10000).
  { assert (a = 0) as -> by lia.
    cbn [app]. rewrite decode_3 by (first [apply lead3_digit | apply cont_digit]; lia).
    f_equal. lia. }
  cbn [app]. rewrite decode_4 by (first [apply lead4_digit | apply cont_digit]; lia).
  f_equal. lia.
Qed.

Lemma decode_encode rs :
  Forall (fun r => scalar r = true) rs -> decode (encode rs) = rs.
Proof.
  induction 1 as [|r rs Hr _ IH]; [reflexivity|].
  unfold encode. cbn [flat_map]. rewrite decode_encode_rune by exact Hr.
  f_equal. exact IH.
Qed.

Lemma encode_rune_bytes r : Forall is_byte (encode_rune r).
Proof.
  unfold encode_rune, is_byte.
  destruct (scalar r) eqn:Hs; cbn [negb].
  2:{ repeat constructor; lia. }
  apply scalar_spec in Hs. destruct Hs as [Hr Hsur].
  destruct (base64_digits r ltac:(lia))
    as (a & b & c & d & E & Ha & Hb & Hc & Hd & M0 & D1 & M1 & D2 & M2 & D3).
  rewrite M0, M1, M2, D1, D2, D3. clear M0 M1 M2 D1 D2 D3.
  destruct (Z.ltb_spec r 0x80); [repeat constructor; lia|].
  destruct (Z.ltb_spec r 0x800); [repeat constructor; lia|].
  destruct (Z.ltb_spec r 0x10000); repeat constructor; lia.
Qed.

Lemma encode_bytes rs : Forall is_byte (encode rs).
Proof.
  induction rs as [|r rs IH]; [constructor|].
  unfold encode. cbn [flat_map]. apply Forall_app. split; [apply encode_rune_bytes|exact IH].
Qed.

Lemma decode_unfold b0 t0 :
  decode (b0 :: t0) =
  if (0 <=? b0) && (b0 <? 0x80) then b0 :: decode t0 else
  match t0 with
  | [] => RuneError :: decode t0
  | b1 :: t1 =>
    if lead2 b0 && cont b1
    then ((b0 - 0xC0) * 64 + (b1 - 0x80)) :: decode t1 else
    match t1 with
    | [] => RuneError :: decode t0
    | b2 :: t2 =>
      if lead3 b0 b1 && cont b2
      then ((b0 - 0xE0) * 4096 + (b1 - 0x80) * 64 + (b2 - 0x80)) :: decode t2 else
      match t2 with
      | [] => RuneError :: decode t0
      | b3 :: t3 =>
        if lead4 b0 b1 && cont b2 && cont b3
        then ((b0 - 0xF0) * 262144 + (b1 - 0x80) * 4096
              + (b2 - 0x80) * 64 + (b3 - 0x80)) :: decode t3
        else RuneError :: decode t0
      end
    end
  end.
Proof. reflexivity. Qed.

Lemma cont_bounds b : cont b = true -> 0x80 <= b <= 0xBF.
Proof. unfold cont. rewrite andb_true_iff, !Z.leb_le. lia. Qed.

Lemma lead3_second b0 b1 :
  lead3 b0 b1 = true ->
  0x80 <= b1 <= 0xBF /\ (b0 = 0xE0 -> 0xA0 <= b1) /\ (b0 = 0xED -> b1 <= 0x9F).
Proof.
  unfold lead3.
  destruct (Z.eqb_spec b0 0xE0); destruct (Z.eqb_spec b0 0xED);
    cbv iota; rewrite !andb_true_iff, !Z.leb_le; lia.
Qed.

Lemma lead4_second b0 b1 :
  lead4 b0 b1 = true ->
  0x80 <= b1 <= 0xBF /\ (b0 = 0xF0 -> 0x90 <= b1) /\ (b0 = 0xF4 -> b1 <= 0x8F).
Proof.
  unfold lead4.
  destruct (Z.eqb_spec b0 0xF0); destruct (Z.eqb_spec b0 0xF4);
    cbv iota; rewrite !andb_true_iff, !Z.leb_le; lia.
Qed.

Lemma scalar_RuneError : scalar RuneError = true.
Proof. reflexivity. Qed.

(** The first rune of a non-empty string is a scalar value and the rest of
    the runes are those of a suffix. *)
Lemma decode_cons b0 t0 :
  exists r k, decode (b0 :: t0) = r :: decode (drop k t0) /\ scalar r = true.
Proof.
  rewrite decode_unfold.
  destruct ((0 <=? b0) && (b0 <? 0x80)) eqn:A.
  { exists b0, 0%nat. split; [reflexivity|].
    apply andb_true_iff in A. destruct A as [A1 A2].
    apply Z.leb_le in A1. apply Z.ltb_lt in A2. apply scalar_spec. lia. }
  destruct t0 as [|b1 t1].
  { exists RuneError, 0%nat. split; [reflexivity|apply scalar_RuneError]. }
  destruct (lead2 b0 && cont b1) eqn:B.
  { exists ((b0 - 0xC0) * 64 + (b1 - 0x80)), 1%nat. split; [reflexivity|].
    apply andb_true_iff in B. destruct B as [B1 B2].
    apply lead2_bounds in B1. apply cont_bounds in B2. apply scalar_spec. lia. }
  destruct t1 as [|b2 t2].
  { exists RuneError, 0%nat. split; [reflexivity|apply scalar_RuneError]. }
  destruct (lead3 b0 b1 && cont b2) eqn:C.
  { exists ((b0 - 0xE0) * 4096 + (b1 - 0x80) * 64 + (b2 - 0x80)), 2%nat.
    split; [reflexivity|].
    apply andb_true_iff in C. destruct C as [C1 C2].
    pose proof (lead3_bounds _ _ C1). apply lead3_second in C1.
    apply cont_bounds in C2. apply scalar_spec. lia. }
  destruct t2 as [|b3 t3].
  { exists RuneError, 0%nat. split; [reflexivity|apply scalar_RuneError]. }
  destruct (lead4 b0 b1 && cont b2 && cont b3) eqn:D.
  { exists ((b0 - 0xF0) * 262144 + (b1 - 0x80) * 4096 + (b2 - 0x80) * 64 + (b3 - 0x80)),
      3%nat.
    split; [reflexivity|].
    apply andb_true_iff in D. destruct D as [D12 D3].
    apply andb_true_iff in D12. destruct D12 as [D1 D2].
    pose proof (lead4_bounds _ _ D1). apply lead4_second in D1.
    apply cont_bounds in D2. apply cont_bounds in D3. apply scalar_spec. lia. }
  exists RuneError, 0%nat. split; [reflexivity|apply scalar_RuneError].
Qed.

Lemma decode_scalar bs : Forall (fun r => scalar r = true) (decode bs).
Proof.
  remember (length bs) as n eqn:Hn.
  revert bs Hn. induction n as [n IH] using lt_wf_ind. intros bs Hn.
  destruct bs as [|b0 t0]; [constructor|].
  destruct (decode_cons b0 t0) as (r & k & E & Hr).
  rewrite E. constructor; [exact Hr|].
  apply (IH (length (drop k t0))); [|reflexivity].
  subst n. cbn [length]. rewrite length_drop. lia.
Qed.

Lemma runes_string_of_runes rs :
  Forall (fun r => scalar r = true) rs -> runes (string_of_runes rs) = rs.
Proof.
  intros H. unfold runes, string_of_runes.
  rewrite bytes_of_string_of_bytes by apply encode_bytes.
  apply decode_encode, H.
Qed.

(** Cutting a string to its first [n] runes yields exactly those runes. *)
Lemma runes_cut (s : string) (n : nat) :
  runes (string_of_runes (firstn n (runes s))) = firstn n (runes s).
Proof.
  apply runes_string_of_runes. apply Forall_take. apply decode_scalar.
Qed.

(** ** The crypto envelope *)

Lemma strip_prefix_app p s : crypto.strip_prefix p (p +:+ s) = Some s.
Proof.
  induction p as [|a p IH]; [reflexivity|].
  change (String a p +:+ s) with (String a (p +:+ s)).
  cbn [crypto.strip_prefix]. rewrite Ascii.eqb_refl. exact IH.
Qed.

Lemma refDecode_refEncode b : crypto.refDecode (crypto.refEncode b) = Some b.
Proof.
  induction b as [|a b IH]; [reflexivity|].
  destruct a as [b0 b1 b2 b3 b4 b5 b6 b7]. cbn. rewrite IH. reflexivity.
Qed.

Lemma decode_ascii bs :
  Forall (fun b => 0 <= b < 0x80) bs -> decode bs = bs.
Proof.
  induction 1 as [|b bs Hb _ IH]; [reflexivity|].
  rewrite decode_1 by exact Hb. f_equal. exact IH.
Qed.

Lemma encode_ascii rs :
  Forall (fun b => 0 <= b < 0x80) rs -> encode rs = rs.
Proof.
  induction 1 as [|r rs Hr _ IH]; [reflexivity|].
  unfold encode. cbn [flat_map]. fold (encode rs). rewrite IH.
  unfold encode_rune.
  assert (Hs : scalar r = true) by (apply scalar_spec; lia).
  rewrite Hs. cbn [negb]. rewrite (proj2 (Z.ltb_lt r 0x80)) by lia. reflexivity.
Qed.

Lemma utf8_coerce_ascii s :
  Forall (fun b => 0 <= b < 0x80) (bytes_of s) -> utf8_coerce s = s.
Proof.
  intros H. unfold utf8_coerce, string_of_runes, runes.
  rewrite decode_ascii by exact H. rewrite encode_ascii by exact H.
  apply string_of_bytes_of.
Qed.

Lemma refEncode_ascii b :
  Forall (fun b => 0 <= b < 0x80) (bytes_of (crypto.refEncode b)).
Proof.
  induction b as [|a b IH]; [constructor|].
  destruct a as [b0 b1 b2 b3 b4 b5 b6 b7].
  cbn [crypto.refEncode]. unfold bytes_of. cbn [list_ascii_of_string map].
  constructor.
  { destruct b0, b1, b2, b3; vm_compute; split; congruence. }
  constructor.
  { destruct b4, b5, b6, b7; vm_compute; split; congruence. }
  exact IH.
Qed.

Lemma unescape_escape s rest :
  crypto.unescape (crypto.escape s +:+ String crypto.quote rest) = Some (s, rest).
Proof.
  assert (Hq : Ascii.eqb crypto.backslash crypto.quote = false) by reflexivity.
  induction s as [|a s IH].
  { change (crypto.escape EmptyString +:+ String crypto.quote rest)
      with (String crypto.quote rest).
    cbn [crypto.unescape]. rewrite Ascii.eqb_refl. reflexivity. }
  cbn [crypto.escape].
  destruct (Ascii.eqb a crypto.quote) eqn:Q; cbn [orb].
  { change (String crypto.backslash (String a (crypto.escape s)) +:+ String crypto.quote rest)
      with (String crypto.backslash (String a (crypto.escape s +:+ String crypto.quote rest))).
    cbn [crypto.unescape]. rewrite Hq, Ascii.eqb_refl, IH. reflexivity. }
  destruct (Ascii.eqb a crypto.backslash) eqn:B.
  { change (String crypto.backslash (String a (crypto.escape s)) +:+ String crypto.quote rest)
      with (String crypto.backslash (String a (crypto.escape s +:+ String crypto.quote rest))).
    cbn [crypto.unescape]. rewrite Hq, Ascii.eqb_refl, IH. reflexivity. }
  change (String a (crypto.escape s) +:+ String crypto.quote rest)
    with (String a (crypto.escape s +:+ String crypto.quote rest)).
  cbn [crypto.unescape]. rewrite Q, B, IH. reflexivity.
Qed.

Lemma append_assoc (a b c : string) : (a +:+ b) +:+ c = a +:+ (b +:+ c).
Proof.
  induction a as [|x a IH]; [reflexivity|].
  change ((String x a +:+ b) +:+ c) with (String x ((a +:+ b) +:+ c)).
  rewrite IH. reflexivity.
Qed.

Lemma refUnmarshal_refMarshal e :
  crypto.refUnmarshal (crypto.refMarshal e) = Some (crypto.coerce_envelope e).
Proof.
  unfold crypto.refUnmarshal, crypto.refMarshal.
  rewrite strip_prefix_app.
  unfold crypto.q. rewrite !append_assoc.
  change (String crypto.quote EmptyString +:+ ?x) with (String crypto.quote x).
  rewrite unescape_escape, strip_prefix_app.
  change (String crypto.quote EmptyString +:+ ?x) with (String crypto.quote x).
  rewrite unescape_escape, strip_prefix_app.
  change (String crypto.quote EmptyString +:+ ?x) with (String crypto.quote x).
  rewrite unescape_escape. reflexivity.
Qed.

Lemma refLib_ok : crypto.LibOk crypto.refLib.
Proof.
  constructor; cbn [crypto.refLib crypto.Seal crypto.Open crypto.EncodeToString
                     crypto.DecodeString crypto.Marshal crypto.Unmarshal].
  - intros k n p _ _. apply strip_prefix_app.
  - apply refDecode_refEncode.
  - intros b. apply utf8_coerce_ascii, refEncode_ascii.
  - apply refUnmarshal_refMarshal.
Qed.

Lemma NewManager_ok cur ks m :
  crypto.NewManager cur ks = Ok m ->
  m = {| crypto.currentKeyID := cur; crypto.keys := ks |} /\
  exists key, ks !! cur = Some key /\ crypto.aesKeySize key = true.
Proof.
  unfold crypto.NewManager.
  destruct (String.eqb cur EmptyString); [discriminate|].
  destruct (Nat.eqb (size ks) 0); [discriminate|].
  destruct (ks !! cur) as [key|] eqn:Hk; [|discriminate].
  destruct (crypto.all_keys_32 ks) eqn:H32; [|discriminate].
  intros [= <-]. split; [reflexivity|].
  exists key. split; [reflexivity|].
  unfold crypto.all_keys_32 in H32. rewrite forallb_forall in H32.
  specialize (H32 (cur, key)).
  assert (Hin : In (cur, key) (map_to_list ks)).
  { apply list_elem_of_In, elem_of_map_to_list, Hk. }
  apply H32 in Hin. cbn [snd] in Hin. apply Nat.eqb_eq in Hin.
  unfold crypto.aesKeySize. rewrite Hin. reflexivity.
Qed.

(** C5 (amended). With the library meeting its contract, a manager built by
    [NewManager] whose current key id is valid UTF-8 (JSON leaves it
    unchanged), and a 12 byte nonce from the random source:
    [MarshalEncryptedString] succeeds and [UnmarshalEncryptedString] gives the
    plaintext back. *)
Theorem C5_marshal_unmarshal_roundtrip
    (L : crypto.Lib) (cur : string) (ks : gmap string string) (m : crypto.Manager)
    (nonce P : string) :
  crypto.LibOk L ->
  crypto.NewManager cur ks = Ok m ->
  utf8_coerce cur = cur ->
  String.length nonce = crypto.NonceSize ->
  exists raw,
    crypto.MarshalEncryptedString L m (Some nonce) P = Ok raw /\
    crypto.UnmarshalEncryptedString L m raw = Ok P.
Proof.
  intros HL Hm Hcur Hn.
  destruct (NewManager_ok _ _ _ Hm) as (-> & key & Hk & Hsz).
  unfold crypto.MarshalEncryptedString, crypto.Encrypt, crypto.key_or_nil.
  cbn [crypto.currentKeyID crypto.keys]. rewrite Hk. cbn [default from_option id].
  rewrite Hsz. cbn [negb].
  eexists. split; [reflexivity|].
  unfold crypto.UnmarshalEncryptedString.
  rewrite (crypto.unmarshal_marshal L HL). unfold crypto.coerce_envelope.
  cbn [crypto.KeyID crypto.Nonce crypto.Ciphertext].
  unfold crypto.Decrypt. cbn [crypto.KeyID crypto.Nonce crypto.Ciphertext crypto.keys].
  rewrite Hcur, Hk.
  rewrite !(crypto.encode_utf8 L HL), !(crypto.decode_encode L HL).
  cbv beta iota. rewrite Hsz. cbn [negb].
  rewrite (crypto.open_seal L HL) by assumption. reflexivity.
Qed.

Lemma C5_marshal_unmarshal_roundtrip_witness :
  exists raw,
    crypto.MarshalEncryptedString crypto.refLib Reference.manager
      (Some "abcdefghijkl"%string) "super-secret"%string = Ok raw /\
    crypto.UnmarshalEncryptedString crypto.refLib Reference.manager raw
      = Ok "super-secret"%string.
Proof.
  apply (C5_marshal_unmarshal_roundtrip crypto.refLib "k1"%string
           {[ "k1"%string := Reference.key32 ]}).
  - apply refLib_ok.
  - vm_compute. reflexivity.
  - vm_compute. reflexivity.
  - reflexivity.
Defined.

(** C5 as stated fails for a key id that is not valid UTF-8: the manager is
    accepted by [NewManager], the envelope is written with the id coerced to
    U+FFFD, and reading it back does not find the key. *)
Lemma C5_counterexample_invalid_utf8_key_id :
  crypto.LibOk crypto.refLib /\
  exists m raw,
    crypto.NewManager Reference.badKeyID {[ Reference.badKeyID := Reference.key32 ]} = Ok m /\
    crypto.MarshalEncryptedString crypto.refLib m (Some "abcdefghijkl"%string)
      "super-secret"%string = Ok raw /\
    crypto.UnmarshalEncryptedString crypto.refLib m raw = Err (ErrMsg "unknown key id").
Proof.
  split; [apply refLib_ok|].
  eexists. eexists. split; [vm_compute; reflexivity|].
  split; vm_compute; reflexivity.
Qed.

(** ** The monad *)

Lemma bind_run {A B} (m : M A) (k : A -> M B) (w : World) :
  bind m k w = k (eval m w) (exec m w).
Proof. unfold bind, eval, exec. destruct (m w). reflexivity. Qed.

Lemma run_pair {A} (m : M A) (w : World) (a : A) (w' : World) :
  m w = (a, w') -> eval m w = a /\ exec m w = w'.
Proof. unfold eval, exec. intros ->. split; reflexivity. Qed.

Lemma exec_bind {A B} (m : M A) (k : A -> M B) (w : World) :
  exec (bind m k) w = exec (k (eval m w)) (exec m w).
Proof. unfold exec at 1 2. rewrite bind_run. reflexivity. Qed.

Lemma eval_bind {A B} (m : M A) (k : A -> M B) (w : World) :
  eval (bind m k) w = eval (k (eval m w)) (exec m w).
Proof. unfold eval at 1 2. rewrite bind_run. reflexivity. Qed.

(** ** Ingress: the update processor *)

Lemma ProcessUpdate_fresh cfg base ctx w :
  telegram.UpdateId ctx ∉ seen w ->
  exists ok w',
    telegram.ProcessUpdate (telegram.mainProcessor cfg base) ctx w = base ctx w' /\
    trace w' = trace w ++ [EvSetNX (telegram.UpdateId ctx) ok] /\
    store w' = store w /\ stream w' = stream w.
Proof.
  intros Hfresh.
  unfold telegram.ProcessUpdate, telegram.mainProcessor, telegram.MarkFirst,
    queue.MarkFirst, metrics.IncUpdates, bind, ret, answer, get, modify, emit.
  cbn.
  destruct (op_ok _) eqn:Hok.
  - destruct (decide (telegram.UpdateId ctx ∈ seen w)) as [Hin|_]; [contradiction|].
    cbn. eexists _, _. split; [reflexivity|]. cbn. repeat split; reflexivity.
  - cbn. eexists _, _. split; [reflexivity|]. cbn. repeat split; reflexivity.
Qed.

(** C1 (what the code does). In private mode, an update that is not a
    duplicate and whose user is not the configured admin is handed to the base
    processor (the handlers run): the processor [main] installs has no access
    check. *)
Theorem C1_private_mode_update_reaches_base
    (cfg : telegram.Config) (base : telegram.Context -> M unit)
    (ctx : telegram.Context) (w : World) :
  telegram.BotAccessMode cfg = telegram.AccessModePrivate ->
  telegram.userID ctx <> telegram.allowedUserID cfg ->
  telegram.UpdateId ctx ∉ seen w ->
  exists ok w',
    telegram.ProcessUpdate (telegram.mainProcessor cfg base) ctx w = base ctx w' /\
    trace w' = trace w ++ [EvSetNX (telegram.UpdateId ctx) ok].
Proof.
  intros _ _ Hfresh.
  destruct (ProcessUpdate_fresh cfg base ctx w Hfresh) as (ok & w' & E & T & _).
  exists ok, w'. split; assumption.
Qed.

Lemma C1_private_mode_update_reaches_base_witness :
  exists ok w',
    telegram.ProcessUpdate
      (telegram.mainProcessor Reference.privateCfg
         (telegram.dispatch (telegram.NewService Reference.privateCfg)))
      (Reference.update 1001 7 "/ask hi")
      (Reference.world Reference.store111 Reference.emptyStream Reference.allOk)
    = telegram.dispatch (telegram.NewService Reference.privateCfg)
        (Reference.update 1001 7 "/ask hi") w' /\
    trace w' = [] ++ [EvSetNX 1001 ok].
Proof.
  apply (C1_private_mode_update_reaches_base Reference.privateCfg
           (telegram.dispatch (telegram.NewService Reference.privateCfg))
           (Reference.update 1001 7 "/ask hi")
           (Reference.world Reference.store111 Reference.emptyStream Reference.allOk)).
  - reflexivity.
  - vm_compute. discriminate.
  - cbn. apply not_elem_of_empty.
Defined.

(** In that run the request of user 7 is accepted: its job is in the
    stream. *)
Example private_mode_non_admin_job_enqueued :
  map (fun m => queue.UserID (queue.Job m))
    (queue.entries (stream (exec
      (telegram.ProcessUpdate
        (telegram.mainProcessor Reference.privateCfg
           (telegram.dispatch (telegram.NewService Reference.privateCfg)))
        (Reference.update 1001 7 "/ask hi"))
      (Reference.world Reference.store111 Reference.emptyStream Reference.allOk))))
  = [7].
Proof. vm_compute. reflexivity. Qed.

(** ** Ingress: requests without an effective user *)

Lemma allowRate_no_user s chatID ctx w :
  telegram.allowRate s chatID 0 ctx w = (true, w).
Proof.
  unfold telegram.allowRate. destruct (telegram.rateLimiter s); reflexivity.
Qed.


(** What [enqueueJob] leaves behind: the counters are untouched and the
    first operation is the XADD of the stamped job. *)
Lemma enqueueJob_spec ctx chat job w :
  telegram.EffectiveChat ctx = Some chat ->
  let a := env w (length (trace w)) in
  let job' := queue.stamp job (random_id a) (clock a) in
  let w' := exec (telegram.enqueueJob ctx job) w in
  counters w' = counters w /\
  exists text ok,
    trace w' = trace w
      ++ [EvXAdd job' (if op_ok a then Some (queue.next_id (stream w)) else None);
          EvSend (telegram.Id chat) text 0 ok] /\
    (op_ok a = true ->
       text = "Accepted. Processing in queue."%string /\
       queue.entries (stream w')
       = queue.entries (stream w)
         ++ [{| queue.ID := queue.next_id (stream w); queue.Job := job' |}]).
Proof.
  intros Hchat. cbv zeta.
  unfold telegram.enqueueJob, ops.Enqueue, telegram.reply, ops.SendMessage,
    metrics.IncEnqueued, exec, bind, ret, answer, get, modify, emit.
  rewrite Hchat. cbn.
  destruct (op_ok (env w (length (trace w)))) eqn:Hok; cbn.
  - split; [reflexivity|]. eexists _, _. rewrite <- app_assoc. cbn.
    split; [reflexivity|]. intros _. split; reflexivity.
  - split; [reflexivity|]. eexists _, _. rewrite <- app_assoc. cbn.
    split; [reflexivity|]. intros [=].
Qed.

Lemma ensureChat_spec msg w :
  let w' := exec (telegram.ensureChat msg) w in
  counters w' = counters w /\ trace w' = trace w /\ stream w' = stream w /\
  env w' = env w.
Proof. cbv zeta. repeat split; reflexivity. Qed.

(** C10. A /ask or /ai message without an effective user (user id 0) is not
    rate limited: [allowRate] answers true without touching anything, the
    counters are left as they were, and the handler goes on to write the job,
    with user id 0, to the queue; when the queue takes it the job is in the
    stream and the reply is the acceptance. *)
Theorem C10_no_user_skips_rate_limit
    (s : telegram.Service) (ctx : telegram.Context)
    (msg : telegram.MessageInfo) (chat : telegram.ChatInfo) (w : World) :
  telegram.EffectiveMessage ctx = Some msg ->
  telegram.EffectiveChat ctx = Some chat ->
  telegram.EffectiveUser ctx = None ->
  let a := env w (length (trace w)) in
  telegram.allowRate s (telegram.Id chat) (telegram.userID ctx) ctx w = (true, w) /\
  (forall prompt,
     TrimSpace (telegram.commandRemainder (telegram.Text msg)) = prompt ->
     prompt <> EmptyString ->
     let job := queue.stamp
       {| queue.JobID := EmptyString; queue.ChatID := telegram.Id chat;
          queue.ChatType := telegram.Type_ chat; queue.UserID := 0;
          queue.MessageID := telegram.MessageId msg; queue.Prompt := prompt;
          queue.PresetName := EmptyString; queue.EnqueuedAt := 0;
          queue.Attempts := 0 |} (random_id a) (clock a) in
     let w' := exec (telegram.ask s ctx) w in
     counters w' = counters w /\
     exists text ok,
       trace w' = trace w
         ++ [EvXAdd job (if op_ok a then Some (queue.next_id (stream w)) else None);
             EvSend (telegram.Id chat) text 0 ok] /\
       (op_ok a = true ->
          text = "Accepted. Processing in queue."%string /\
          queue.entries (stream w')
          = queue.entries (stream w)
            ++ [{| queue.ID := queue.next_id (stream w); queue.Job := job |}])) /\
  (forall preset prompt,
     telegram.splitFirstWord (TrimSpace (telegram.commandRemainder (telegram.Text msg)))
       = (preset, prompt) ->
     preset <> EmptyString -> prompt <> EmptyString ->
     let job := queue.stamp
       {| queue.JobID := EmptyString; queue.ChatID := telegram.Id chat;
          queue.ChatType := telegram.Type_ chat; queue.UserID := 0;
          queue.MessageID := telegram.MessageId msg; queue.Prompt := prompt;
          queue.PresetName := preset; queue.EnqueuedAt := 0;
          queue.Attempts := 0 |} (random_id a) (clock a) in
     let w' := exec (telegram.ai s ctx) w in
     counters w' = counters w /\
     exists text ok,
       trace w' = trace w
         ++ [EvXAdd job (if op_ok a then Some (queue.next_id (stream w)) else None);
             EvSend (telegram.Id chat) text 0 ok] /\
       (op_ok a = true ->
          text = "Accepted. Processing in queue."%string /\
          queue.entries (stream w')
          = queue.entries (stream w)
            ++ [{| queue.ID := queue.next_id (stream w); queue.Job := job |}])).
Proof.
  intros Hmsg Hchat Huser. cbv zeta.
  assert (Hu : telegram.userID ctx = 0) by (unfold telegram.userID; rewrite Huser; reflexivity).
  rewrite Hu. split; [apply allowRate_no_user|]. split.
  - intros prompt Hp Hne.
    assert (E : telegram.ask s ctx w
                = telegram.enqueueJob ctx
                    {| queue.JobID := EmptyString; queue.ChatID := telegram.Id chat;
                       queue.ChatType := telegram.Type_ chat; queue.UserID := 0;
                       queue.MessageID := telegram.MessageId msg; queue.Prompt := prompt;
                       queue.PresetName := EmptyString; queue.EnqueuedAt := 0;
                       queue.Attempts := 0 |} (exec (telegram.ensureChat msg) w)).
    { unfold telegram.ask. rewrite Hmsg, Hchat, Hp, Hu.
      destruct (String.eqb_spec prompt EmptyString) as [->|_]; [contradiction|].
      rewrite bind_run. unfold eval, exec at 1. rewrite allowRate_no_user.
      cbn [fst snd negb]. rewrite bind_run. reflexivity. }
    unfold exec at 1 2 3. rewrite E.
    apply (enqueueJob_spec ctx chat _ (exec (telegram.ensureChat msg) w) Hchat).
  - intros preset prompt Hsp Hne1 Hne2.
    assert (E : telegram.ai s ctx w
                = telegram.enqueueJob ctx
                    {| queue.JobID := EmptyString; queue.ChatID := telegram.Id chat;
                       queue.ChatType := telegram.Type_ chat; queue.UserID := 0;
                       queue.MessageID := telegram.MessageId msg; queue.Prompt := prompt;
                       queue.PresetName := preset; queue.EnqueuedAt := 0;
                       queue.Attempts := 0 |} (exec (telegram.ensureChat msg) w)).
    { unfold telegram.ai. rewrite Hmsg, Hchat, Hsp, Hu.
      destruct (String.eqb_spec preset EmptyString) as [->|_]; [contradiction|].
      destruct (String.eqb_spec prompt EmptyString) as [->|_]; [contradiction|].
      cbn [orb].
      rewrite bind_run. unfold eval, exec at 1. rewrite allowRate_no_user.
      cbn [fst snd negb]. rewrite bind_run. reflexivity. }
    unfold exec at 1 2 3. rewrite E.
    apply (enqueueJob_spec ctx chat _ (exec (telegram.ensureChat msg) w) Hchat).
Qed.

Lemma C10_no_user_skips_rate_limit_witness :
  telegram.allowRate (telegram.NewService Reference.privateCfg) 111 0
    (Reference.anonymous 1002 "/ask hello")
    (Reference.world Reference.store111 Reference.emptyStream Reference.allOk)
  = (true, Reference.world Reference.store111 Reference.emptyStream Reference.allOk).
Proof.
  exact (proj1 (C10_no_user_skips_rate_limit
    (telegram.NewService Reference.privateCfg)
    (Reference.anonymous 1002 "/ask hello")
    {| telegram.MessageId := 55; telegram.Chat := Reference.chat111;
       telegram.Text := "/ask hello" |}
    Reference.chat111
    (Reference.world Reference.store111 Reference.emptyStream Reference.allOk)
    eq_refl eq_refl eq_refl)).
Defined.

(** ** The rate limiter *)

Lemma Hour_pos : 0 < queue.Hour.
Proof. reflexivity. Qed.

Lemma windowEnd_next_hour now :
  queue.windowEnd now mod queue.Hour = 0 /\
  now < queue.windowEnd now <= now + queue.Hour.
Proof.
  unfold queue.windowEnd, queue.windowStart.
  pose proof Hour_pos as HP.
  pose proof (Z.mod_pos_bound now queue.Hour HP) as HB.
  split; [|lia].
  pose proof (Z.div_mod now queue.Hour ltac:(lia)) as HD.
  replace (now - now mod queue.Hour + queue.Hour)
    with ((now / queue.Hour + 1) * queue.Hour) by lia.
  apply Z.mod_mul. lia.
Qed.

Lemma ttl_bounds now : 1 <= queue.ttl now <= 3600.
Proof.
  unfold queue.ttl.
  destruct (windowEnd_next_hour now) as [_ HB].
  assert (H : 0 <= (queue.windowEnd now - now) / queue.Second <= 3600).
  { split.
    - apply Z.div_pos; [lia|reflexivity].
    - apply Z.div_le_upper_bound; [reflexivity|].
      change (queue.Second * 3600) with queue.Hour. lia. }
  destruct (Z.ltb_spec ((queue.windowEnd now - now) / queue.Second) 1); lia.
Qed.

(** One call: the counter of the key goes up by one whatever the verdict,
    the verdict compares the new value with the limit, and no other counter
    moves. *)
Lemma Allow_step r c chatID userID now :
  exists c',
    queue.Allow r c true chatID userID now
    = (Ok {| queue.allowed := queue.count c (queue.key chatID userID now) + 1 <=? queue.limit r;
             queue.used := queue.count c (queue.key chatID userID now) + 1;
             queue.resetAt := queue.windowEnd now |}, c') /\
    queue.count c' (queue.key chatID userID now)
      = queue.count c (queue.key chatID userID now) + 1 /\
    (forall k, k <> queue.key chatID userID now -> queue.count c' k = queue.count c k).
Proof.
  unfold queue.Allow, queue.incrWithTTLScript, queue.count.
  destruct (c !! queue.key chatID userID now) as [[n t]|] eqn:E.
  - eexists. split; [reflexivity|]. split.
    + rewrite lookup_insert_eq. reflexivity.
    + intros k Hk. rewrite lookup_insert_ne by congruence. reflexivity.
  - eexists. split; [reflexivity|]. split.
    + rewrite lookup_insert_eq. reflexivity.
    + intros k Hk. rewrite lookup_insert_ne by congruence. reflexivity.
Qed.

Lemma hits_cons k call calls :
  queue.hits k (call :: calls)
  = ((if bool_decide (queue.key_of call = k) then 1 else 0) + queue.hits k calls)%nat.
Proof.
  unfold queue.hits. cbn [List.filter].
  destruct (bool_decide (queue.key_of call = k)); reflexivity.
Qed.

(** The answer to the i-th call of a sequence: the value the counter had
    before the sequence plus the number of calls on it up to and including
    this one. *)
Lemma AllowAll_lookup r calls :
  forall c (i : nat) chatID userID now,
    calls !! i = Some (chatID, userID, now) ->
    let k := queue.key chatID userID now in
    let n := queue.count c k + Z.of_nat (queue.hits k (take (S i) calls)) in
    queue.AllowAll r c calls !! i
    = Some (Ok {| queue.allowed := n <=? queue.limit r; queue.used := n;
                  queue.resetAt := queue.windowEnd now |}).
Proof.
  induction calls as [|[[c0 u0] t0] calls IH]; intros c i chatID userID now Hi;
    [discriminate|].
  cbv zeta. cbn [queue.AllowAll].
  destruct (Allow_step r c c0 u0 t0) as (c' & E & Hc & Hother).
  rewrite E.
  destruct i as [|i].
  - cbn in Hi. injection Hi as -> -> ->.
    cbn [take]. rewrite hits_cons.
    change (queue.key_of (chatID, userID, now)) with (queue.key chatID userID now).
    rewrite bool_decide_eq_true_2 by reflexivity.
    unfold queue.hits. cbn [List.filter length].
    replace (Z.of_nat (1 + 0)) with 1 by reflexivity. reflexivity.
  - cbn in Hi. pose proof (IH c' i chatID userID now Hi) as IHi. cbv zeta in IHi.
    etransitivity; [exact IHi|]. clear IHi.
    cbn [take]. rewrite hits_cons.
    change (queue.key_of (c0, u0, t0)) with (queue.key c0 u0 t0).
    destruct (bool_decide_reflect (queue.key c0 u0 t0 = queue.key chatID userID now)) as [Heq|Hne].
    + rewrite <- Heq, Hc.
      replace (queue.count c (queue.key c0 u0 t0) + 1
               + Z.of_nat (queue.hits (queue.key c0 u0 t0) (take (S i) calls)))
        with (queue.count c (queue.key c0 u0 t0)
              + Z.of_nat (1 + queue.hits (queue.key c0 u0 t0) (take (S i) calls))) by lia.
      reflexivity.
    + rewrite Hother by congruence. reflexivity.
Qed.

Lemma hits_all k calls :
  Forall (fun call => queue.key_of call = k) calls ->
  queue.hits k calls = length calls.
Proof.
  induction 1 as [|call calls Hc _ IH]; [reflexivity|].
  rewrite hits_cons, IH, bool_decide_eq_true_2 by exact Hc. reflexivity.
Qed.



(** ** Presets and the default preset *)

Lemma reply_store ctx text w : store (exec (telegram.reply ctx text) w) = store w.
Proof.
  unfold telegram.reply. destruct (telegram.EffectiveChat ctx); reflexivity.
Qed.

Lemma isAdmin_store chatID userID w :
  store (exec (telegram.isAdmin chatID userID) w) = store w.
Proof.
  unfold telegram.isAdmin, exec, bind, ret, answer, get, modify, emit. cbn.
  destruct (if op_ok _ then _ else _); [reflexivity|].
  cbn. destruct (op_ok _); reflexivity.
Qed.

(** When [requireAdmin] lets the caller through, the chat and the user are
    those of the update and the row of the message's chat exists. *)
Lemma requireAdmin_Some ctx w chatID userID w1 :
  telegram.requireAdmin ctx w = (Some (chatID, userID), w1) ->
  exists chat user,
    telegram.EffectiveChat ctx = Some chat /\ telegram.Id chat = chatID /\
    telegram.EffectiveUser ctx = Some user /\ telegram.UserId user = userID /\
    forall msg, telegram.EffectiveMessage ctx = Some msg ->
                is_Some (storage.chats (store w1) !! telegram.Id (telegram.Chat msg)).
Proof.
  unfold telegram.requireAdmin.
  destruct (telegram.EffectiveChat ctx) as [chat|] eqn:Hc; [|discriminate].
  destruct (telegram.EffectiveUser ctx) as [user|] eqn:Hu; [|discriminate].
  destruct (String.eqb (telegram.Type_ chat) "private").
  { rewrite bind_run. discriminate. }
  rewrite bind_run.
  destruct (eval (telegram.isAdmin (telegram.Id chat) (telegram.UserId user)) w)
    as [admin|e].
  2:{ rewrite bind_run. discriminate. }
  destruct admin; cbn [negb].
  2:{ rewrite bind_run. discriminate. }
  rewrite bind_run. unfold ret. intros [= <- <- <-].
  exists chat, user. repeat split; try reflexivity.
  intros msg ->. unfold telegram.ensureChat, modify, exec. cbn.
  rewrite lookup_insert_eq. eauto.
Qed.

Lemma UpsertPreset_chats st p : storage.chats (storage.UpsertPreset st p) = storage.chats st.
Proof. reflexivity. Qed.

Lemma GetDefaultPresetName_chats st st' chatID :
  storage.chats st' = storage.chats st ->
  storage.GetDefaultPresetName st' chatID = storage.GetDefaultPresetName st chatID.
Proof. unfold storage.GetDefaultPresetName. intros ->. reflexivity. Qed.

(** The store [aiPresetAdd] leaves behind once the caller is let through,
    the command parses and the provider exists. *)
Lemma aiPresetAdd_store s ctx w chatID userID w1 msg name rem1 providerName rem2
    model rem3 systemPrompt provider :
  telegram.requireAdmin ctx w = (Some (chatID, userID), w1) ->
  telegram.EffectiveMessage ctx = Some msg ->
  telegram.splitFirstWord (TrimSpace (telegram.commandRemainder (telegram.Text msg)))
    = (name, rem1) ->
  telegram.splitFirstWord rem1 = (providerName, rem2) ->
  telegram.splitFirstWord rem2 = (model, rem3) ->
  TrimSpace rem3 = systemPrompt ->
  name <> EmptyString -> providerName <> EmptyString ->
  model <> EmptyString -> systemPrompt <> EmptyString ->
  storage.GetProviderByName (store w1) chatID providerName = Ok provider ->
  let st2 := storage.UpsertPreset (store w1)
               {| storage.Preset.ChatID := chatID;
                  storage.Preset.Name := name;
                  storage.Preset.ProviderInstanceID := storage.ProviderInstance.ID provider;
                  storage.Preset.Model := model;
                  storage.Preset.SystemPrompt := systemPrompt;
                  storage.Preset.ParamsJSON := telegram.defaultParams |} in
  let st3 := match storage.GetDefaultPresetName st2 chatID with
             | Ok _ => st2
             | Err err =>
               if is_not_found err then
                 match storage.SetDefaultPreset st2 chatID name with
                 | Ok st' => st'
                 | Err _ => st2
                 end
               else st2
             end in
  store (exec (telegram.aiPresetAdd s ctx) w)
  = storage.LogAction st3
      {| storage.AuditChatID := chatID; storage.AuditUserID := userID;
         storage.Action := "preset_add" |}.
Proof.
  intros Hreq Hmsg H1 H2 H3 H4 N1 N2 N3 N4 Hprov. cbv zeta.
  destruct (run_pair _ _ _ _ Hreq) as [Hev Hex].
  unfold telegram.aiPresetAdd. rewrite exec_bind, Hev, Hex, Hmsg, H1, H2, H3, H4.
  destruct (String.eqb_spec name EmptyString) as [?|_]; [contradiction|].
  destruct (String.eqb_spec providerName EmptyString) as [?|_]; [contradiction|].
  destruct (String.eqb_spec model EmptyString) as [?|_]; [contradiction|].
  destruct (String.eqb_spec systemPrompt EmptyString) as [?|_]; [contradiction|].
  cbn [orb]. rewrite exec_bind.
  change (eval (get store) w1) with (store w1). change (exec (get store) w1) with w1.
  rewrite Hprov. rewrite !exec_bind.
  rewrite reply_store.
  change (eval (get store) ?x) with (store x).
  change (exec (get store) ?x) with x.
  change (exec (modify ?f) ?x) with (f x).
  unfold telegram.audit.
  change (exec (modify ?f) ?x) with (f x).
  cbn [store set_store]. f_equal.
  destruct (storage.GetDefaultPresetName _ chatID) as [d|err] eqn:HD.
  - reflexivity.
  - destruct (is_not_found err); [|reflexivity].
    destruct (storage.SetDefaultPreset _ chatID name) as [st'|]; reflexivity.
Qed.

Lemma aiPresetDel_store s ctx w chatID userID w1 msg name st1 :
  telegram.requireAdmin ctx w = (Some (chatID, userID), w1) ->
  telegram.EffectiveMessage ctx = Some msg ->
  TrimSpace (telegram.commandRemainder (telegram.Text msg)) = name ->
  name <> EmptyString ->
  storage.DeletePreset (store w1) chatID name = Ok st1 ->
  let st2 := match storage.GetDefaultPresetName st1 chatID with
             | Ok def => if String.eqb def name
                         then storage.ClearDefaultPreset st1 chatID else st1
             | Err _ => st1
             end in
  store (exec (telegram.aiPresetDel s ctx) w)
  = storage.LogAction st2
      {| storage.AuditChatID := chatID; storage.AuditUserID := userID;
         storage.Action := "preset_del" |}.
Proof.
  intros Hreq Hmsg Hname Hne Hdel. cbv zeta.
  destruct (run_pair _ _ _ _ Hreq) as [Hev Hex].
  unfold telegram.aiPresetDel. rewrite exec_bind, Hev, Hex, Hmsg, Hname.
  destruct (String.eqb_spec name EmptyString) as [?|_]; [contradiction|].
  rewrite exec_bind.
  change (eval (get store) w1) with (store w1). change (exec (get store) w1) with w1.
  rewrite Hdel. rewrite !exec_bind. rewrite reply_store.
  unfold telegram.audit.
  change (exec (modify ?f) ?x) with (f x).
  cbn [store set_store]. f_equal.
  destruct (storage.GetDefaultPresetName st1 chatID) as [def|err]; [|reflexivity].
  destruct (String.eqb def name); reflexivity.
Qed.



Import providers.

(** ** The retry loop of the adapters *)

Lemma extends_refl w : extends w w [].
Proof. unfold extends. rewrite app_nil_r. repeat split; reflexivity. Qed.

Lemma extends_push w e : extends w (push w e) [e].
Proof. unfold extends. repeat split; reflexivity. Qed.

Lemma extends_trans w w1 w2 evs1 evs2 :
  extends w w1 evs1 -> extends w1 w2 evs2 -> extends w w2 (evs1 ++ evs2).
Proof.
  unfold extends. intros (T1 & A1 & B1 & C1 & D1 & E1 & F1 & G1)
    (T2 & A2 & B2 & C2 & D2 & E2 & F2 & G2).
  rewrite T2, T1, app_assoc. repeat split; congruence.
Qed.

Lemma openai_callOnce_run L c url body w :
  newRequest L "POST" url = true ->
  let o := http_answer (env w (length (trace w))) in
  openai_compat.callOnce L c url body w
  = (match o with
     | DoFailed => (Err (ErrMsg "request failed"), true)
     | ReadFailed => (Err (ErrMsg "read response body"), false)
     | Response status parsed =>
       if retryable o then (Err (ErrMsg "provider temporary status"), true)
       else if ((status <? 200) || (299 <? status))%bool
       then (Err (ErrMsg "provider status"), false)
       else (match parsed with Ok text => Ok text | Err e => Err e end, false)
     end, push w (EvHTTP url o)).
Proof.
  intros Hreq. cbv zeta. unfold openai_compat.callOnce. rewrite Hreq. cbn [negb].
  cbv beta iota zeta delta [bind httpDo answer emit ret].
  destruct (http_answer (env w (length (trace w)))) as [| |status parsed];
    [reflexivity|reflexivity|].
  cbn [retryable]. unfold StatusTooManyRequests.
  destruct ((500 <=? status) || (status =? 429))%bool; [reflexivity|].
  destruct ((status <? 200) || (299 <? status))%bool; [reflexivity|].
  destruct parsed; reflexivity.
Qed.

Lemma backoffSelect_run d w :
  backoffSelect d w
  = (ctx_done (env w (length (trace w))),
     push w (EvSleep d (ctx_done (env w (length (trace w)))))).
Proof. reflexivity. Qed.

Lemma openai_attempts_run L c url body :
  newRequest L "POST" url = true ->
  forall (n : nat) attempt lastErr w,
    0 <= attempt <= openai_compat.MaxRetries (openai_compat.cfg c) ->
    n = Z.to_nat (openai_compat.MaxRetries (openai_compat.cfg c) - attempt + 1) ->
    exists evs,
      extends w (exec (openai_compat.attempts L c url body n attempt lastErr) w) evs /\
      retry_run url (openai_compat.BackoffBase (openai_compat.cfg c))
        (openai_compat.MaxRetries (openai_compat.cfg c)) attempt evs
        (eval (openai_compat.attempts L c url body n attempt lastErr) w).
Proof.
  intros Hreq. induction n as [|n IH]; intros attempt lastErr w Ha Hn; [lia|].
  cbn [openai_compat.attempts].
  rewrite exec_bind, eval_bind.
  pose proof (openai_callOnce_run L c url body w Hreq) as HC. cbv zeta in HC.
  destruct (run_pair _ _ _ _ HC) as [Hev Hex]. rewrite Hev, Hex. clear Hev Hex HC.
  set (o := http_answer (env w (length (trace w)))).
  assert (Hstep : forall r,
    retry_run url (openai_compat.BackoffBase (openai_compat.cfg c))
      (openai_compat.MaxRetries (openai_compat.cfg c)) attempt [EvHTTP url o] r ->
    exists evs,
      extends w (exec (ret r) (push w (EvHTTP url o))) evs /\
      retry_run url (openai_compat.BackoffBase (openai_compat.cfg c))
        (openai_compat.MaxRetries (openai_compat.cfg c)) attempt evs
        (eval (ret r) (push w (EvHTTP url o)))).
  { intros r Hr. exists [EvHTTP url o]. split; [apply extends_push|exact Hr]. }
  assert (Hretry : forall err, retryable o = true ->
    exists evs,
      extends w
        (exec (if (negb true || (attempt =? openai_compat.MaxRetries (openai_compat.cfg c)))%bool
               then ret (Err err)
               else bind (backoffSelect (backoff (openai_compat.BackoffBase (openai_compat.cfg c)) attempt))
                      (fun cancelled => if cancelled then ret (Err ErrCanceled)
                         else openai_compat.attempts L c url body n (attempt + 1) (Some err)))
           (push w (EvHTTP url o))) evs /\
      retry_run url (openai_compat.BackoffBase (openai_compat.cfg c))
        (openai_compat.MaxRetries (openai_compat.cfg c)) attempt evs
        (eval (if (negb true || (attempt =? openai_compat.MaxRetries (openai_compat.cfg c)))%bool
               then ret (Err err)
               else bind (backoffSelect (backoff (openai_compat.BackoffBase (openai_compat.cfg c)) attempt))
                      (fun cancelled => if cancelled then ret (Err ErrCanceled)
                         else openai_compat.attempts L c url body n (attempt + 1) (Some err)))
           (push w (EvHTTP url o)))).
  { intros err Hro. cbn [negb orb].
    destruct (Z.eqb_spec attempt (openai_compat.MaxRetries (openai_compat.cfg c))) as [->|Hne].
    { apply Hstep. apply run_exhausted. exact Hro. }
    rewrite exec_bind, eval_bind.
    set (w1 := push w (EvHTTP url o)).
    destruct (run_pair _ _ _ _ (backoffSelect_run
      (backoff (openai_compat.BackoffBase (openai_compat.cfg c)) attempt) w1)) as [Hev Hex].
    rewrite Hev, Hex. clear Hev Hex.
    destruct (ctx_done (env w1 (length (trace w1)))) eqn:Hdone.
    - exists [EvHTTP url o; EvSleep (backoff (openai_compat.BackoffBase (openai_compat.cfg c)) attempt) true].
      split.
      + apply (extends_trans w w1 _ [EvHTTP url o] [_]); [apply extends_push|].
        apply extends_push.
      + apply run_cancelled; assumption.
    - destruct (IH (attempt + 1) (Some err)
                  (push w1 (EvSleep (backoff (openai_compat.BackoffBase (openai_compat.cfg c)) attempt) false))
                  ltac:(lia) ltac:(lia)) as (evs & Hext & Hrun).
      exists (EvHTTP url o :: EvSleep (backoff (openai_compat.BackoffBase (openai_compat.cfg c)) attempt) false :: evs).
      split.
      + apply (extends_trans w w1 _ [EvHTTP url o] (_ :: evs)); [apply extends_push|].
        eapply (extends_trans w1 _ _ [_] evs); [apply extends_push|exact Hext].
      + apply run_retry; assumption. }
  destruct o as [| |status parsed] eqn:Ho.
  - apply (Hretry _ eq_refl).
  - cbn [negb orb]. apply Hstep. apply run_no_retry. reflexivity.
  - destruct (retryable (Response status parsed)) eqn:Hr.
    + apply (Hretry _ eq_refl).
    + destruct ((status <? 200) || (299 <? status))%bool eqn:Hs.
      * cbn [negb orb]. apply Hstep. apply run_no_retry. exact Hr.
      * destruct parsed as [text|e].
        -- apply Hstep. apply run_success.
           apply orb_false_iff in Hs. destruct Hs as [H1 H2].
           apply Z.ltb_ge in H1. apply Z.ltb_ge in H2. lia.
        -- cbn [negb orb]. apply Hstep. apply run_no_retry. exact Hr.
Qed.

Lemma custom_callOnce_run L c body w :
  blank (custom_http.URL (custom_http.cfg c)) = false ->
  newRequest L (custom_http.Method (custom_http.cfg c))
    (custom_http.URL (custom_http.cfg c)) = true ->
  let o := http_answer (env w (length (trace w))) in
  custom_http.callOnce L c body w
  = (match o with
     | DoFailed => (Err (ErrMsg "custom request failed"), true)
     | ReadFailed => (Err (ErrMsg "read custom response"), false)
     | Response status parsed =>
       if retryable o then (Err (ErrMsg "custom provider temporary status"), true)
       else if ((status <? 200) || (299 <? status))%bool
       then (Err (ErrMsg "custom provider status"), false)
       else (match parsed with Ok text => Ok text | Err e => Err e end, false)
     end, push w (EvHTTP (custom_http.URL (custom_http.cfg c)) o)).
Proof.
  intros Hurl Hreq. cbv zeta. unfold custom_http.callOnce. rewrite Hurl, Hreq. cbn [negb].
  cbv beta iota zeta delta [bind httpDo answer emit ret].
  destruct (http_answer (env w (length (trace w)))) as [| |status parsed];
    [reflexivity|reflexivity|].
  cbn [retryable]. unfold StatusTooManyRequests.
  destruct ((500 <=? status) || (status =? 429))%bool; [reflexivity|].
  destruct ((status <? 200) || (299 <? status))%bool; [reflexivity|].
  destruct parsed; reflexivity.
Qed.

Lemma custom_attempts_run L c body :
  blank (custom_http.URL (custom_http.cfg c)) = false ->
  newRequest L (custom_http.Method (custom_http.cfg c))
    (custom_http.URL (custom_http.cfg c)) = true ->
  forall (n : nat) attempt lastErr w,
    0 <= attempt <= custom_http.MaxRetries (custom_http.cfg c) ->
    n = Z.to_nat (custom_http.MaxRetries (custom_http.cfg c) - attempt + 1) ->
    exists evs,
      extends w (exec (custom_http.attempts L c body n attempt lastErr) w) evs /\
      retry_run (custom_http.URL (custom_http.cfg c)) (custom_http.BackoffBase (custom_http.cfg c))
        (custom_http.MaxRetries (custom_http.cfg c)) attempt evs
        (eval (custom_http.attempts L c body n attempt lastErr) w).
Proof.
  intros Hurl Hreq. set (url := custom_http.URL (custom_http.cfg c)). induction n as [|n IH]; intros attempt lastErr w Ha Hn; [lia|].
  cbn [custom_http.attempts].
  rewrite exec_bind, eval_bind.
  pose proof (custom_callOnce_run L c body w Hurl Hreq) as HC. cbv zeta in HC.
  destruct (run_pair _ _ _ _ HC) as [Hev Hex]. rewrite Hev, Hex. clear Hev Hex HC.
  set (o := http_answer (env w (length (trace w)))).
  assert (Hstep : forall r,
    retry_run url (custom_http.BackoffBase (custom_http.cfg c))
      (custom_http.MaxRetries (custom_http.cfg c)) attempt [EvHTTP url o] r ->
    exists evs,
      extends w (exec (ret r) (push w (EvHTTP url o))) evs /\
      retry_run url (custom_http.BackoffBase (custom_http.cfg c))
        (custom_http.MaxRetries (custom_http.cfg c)) attempt evs
        (eval (ret r) (push w (EvHTTP url o)))).
  { intros r Hr. exists [EvHTTP url o]. split; [apply extends_push|exact Hr]. }
  assert (Hretry : forall err, retryable o = true ->
    exists evs,
      extends w
        (exec (if (negb true || (attempt =? custom_http.MaxRetries (custom_http.cfg c)))%bool
               then ret (Err err)
               else bind (backoffSelect (backoff (custom_http.BackoffBase (custom_http.cfg c)) attempt))
                      (fun cancelled => if cancelled then ret (Err ErrCanceled)
                         else custom_http.attempts L c body n (attempt + 1) (Some err)))
           (push w (EvHTTP url o))) evs /\
      retry_run url (custom_http.BackoffBase (custom_http.cfg c))
        (custom_http.MaxRetries (custom_http.cfg c)) attempt evs
        (eval (if (negb true || (attempt =? custom_http.MaxRetries (custom_http.cfg c)))%bool
               then ret (Err err)
               else bind (backoffSelect (backoff (custom_http.BackoffBase (custom_http.cfg c)) attempt))
                      (fun cancelled => if cancelled then ret (Err ErrCanceled)
                         else custom_http.attempts L c body n (attempt + 1) (Some err)))
           (push w (EvHTTP url o)))).
  { intros err Hro. cbn [negb orb].
    destruct (Z.eqb_spec attempt (custom_http.MaxRetries (custom_http.cfg c))) as [->|Hne].
    { apply Hstep. apply run_exhausted. exact Hro. }
    rewrite exec_bind, eval_bind.
    set (w1 := push w (EvHTTP url o)).
    destruct (run_pair _ _ _ _ (backoffSelect_run
      (backoff (custom_http.BackoffBase (custom_http.cfg c)) attempt) w1)) as [Hev Hex].
    rewrite Hev, Hex. clear Hev Hex.
    destruct (ctx_done (env w1 (length (trace w1)))) eqn:Hdone.
    - exists [EvHTTP url o; EvSleep (backoff (custom_http.BackoffBase (custom_http.cfg c)) attempt) true].
      split.
      + apply (extends_trans w w1 _ [EvHTTP url o] [_]); [apply extends_push|].
        apply extends_push.
      + apply run_cancelled; assumption.
    - destruct (IH (attempt + 1) (Some err)
                  (push w1 (EvSleep (backoff (custom_http.BackoffBase (custom_http.cfg c)) attempt) false))
                  ltac:(lia) ltac:(lia)) as (evs & Hext & Hrun).
      exists (EvHTTP url o :: EvSleep (backoff (custom_http.BackoffBase (custom_http.cfg c)) attempt) false :: evs).
      split.
      + apply (extends_trans w w1 _ [EvHTTP url o] (_ :: evs)); [apply extends_push|].
        eapply (extends_trans w1 _ _ [_] evs); [apply extends_push|exact Hext].
      + apply run_retry; assumption. }
  destruct o as [| |status parsed] eqn:Ho.
  - apply (Hretry _ eq_refl).
  - cbn [negb orb]. apply Hstep. apply run_no_retry. reflexivity.
  - destruct (retryable (Response status parsed)) eqn:Hr.
    + apply (Hretry _ eq_refl).
    + destruct ((status <? 200) || (299 <? status))%bool eqn:Hs.
      * cbn [negb orb]. apply Hstep. apply run_no_retry. exact Hr.
      * destruct parsed as [text|e].
        -- apply Hstep. apply run_success.
           apply orb_false_iff in Hs. destruct Hs as [H1 H2].
           apply Z.ltb_ge in H1. apply Z.ltb_ge in H2. lia.
        -- cbn [negb orb]. apply Hstep. apply run_no_retry. exact Hr.
Qed.

(** *** Consequences of the policy *)

Lemma retry_run_count url base maxr attempt evs r :
  retry_run url base maxr attempt evs r ->
  attempt <= maxr ->
  Z.of_nat (http_count evs) <= maxr - attempt + 1.
Proof.
  induction 1 as [attempt status text Hs|attempt o e Ho|o e Ho|attempt o Ho Hne
                 |attempt o evs r Ho Hne Hrun IH]; intros Hle;
    unfold http_count in *; cbn [List.filter is_http length] in *; lia.
Qed.

Lemma retry_run_permanent url base maxr attempt evs r :
  retry_run url base maxr attempt evs r ->
  attempt <= maxr ->
  permanently_failing evs ->
  Z.of_nat (http_count evs) = maxr - attempt + 1 /\
  sleeps evs = map (backoff base) (seqZ attempt (maxr - attempt)) /\
  exists e, r = Err e.
Proof.
  unfold permanently_failing.
  induction 1 as [attempt status text Hs|attempt o e Ho|o e Ho|attempt o Ho Hne
                 |attempt o evs r Ho Hne Hrun IH]; intros Hle Hperm.
  - apply Forall_cons in Hperm. destruct Hperm as [Hr _]. cbn in Hr.
    apply orb_true_iff in Hr. rewrite Z.leb_le, Z.eqb_eq in Hr. lia.
  - apply Forall_cons in Hperm. destruct Hperm as [Hr _]. congruence.
  - split; [unfold http_count; cbn; lia|]. split; [|eauto].
    rewrite Z.sub_diag. reflexivity.
  - apply Forall_cons in Hperm. destruct Hperm as [_ Hperm].
    apply Forall_cons in Hperm. destruct Hperm as [Hc _]. discriminate.
  - apply Forall_cons in Hperm. destruct Hperm as [_ Hperm].
    apply Forall_cons in Hperm. destruct Hperm as [_ Hperm].
    destruct (IH ltac:(lia) Hperm) as (Hcount & Hsleeps & He).
    split; [|split; [|exact He]].
    + unfold http_count in *. cbn [List.filter is_http length].
      rewrite Nat2Z.inj_succ, Hcount. lia.
    + cbn [sleeps]. rewrite Hsleeps.
      replace (maxr - attempt) with (Z.succ (maxr - (attempt + 1))) by lia.
      rewrite (seqZ_cons attempt) by lia. cbn [map].
      replace (Z.succ attempt) with (attempt + 1) by lia.
      replace (Z.pred (Z.succ (maxr - (attempt + 1)))) with (maxr - (attempt + 1)) by lia.
      reflexivity.
Qed.

Lemma wrap64_small z : - 2 ^ 63 <= z < 2 ^ 63 -> wrap64 z = z.
Proof. intros H. unfold wrap64. rewrite Z.mod_small by lia. lia. Qed.

(** The backoff is the product [base * 2^attempt] whenever that is a
    [time.Duration]. *)
Lemma backoff_exact base k :
  0 <= base -> 0 <= k -> base * 2 ^ k <= MaxInt64 -> backoff base k = base * 2 ^ k.
Proof.
  intros Hb Hk Hfit. unfold backoff, MaxInt64 in *.
  rewrite Z.shiftl_1_l.
  assert (Hp : 0 < 2 ^ k) by (apply Z.pow_pos_nonneg; lia).
  destruct (Z.eq_dec base 0) as [->|Hne].
  { rewrite !Z.mul_0_l. reflexivity. }
  assert (H2 : 2 ^ k <= base * 2 ^ k) by nia.
  rewrite (wrap64_small (2 ^ k)) by lia.
  apply wrap64_small. nia.
Qed.

Lemma openai_New_bounds cfg0 :
  0 <= openai_compat.MaxRetries (openai_compat.cfg (openai_compat.New cfg0)) /\
  0 < openai_compat.BackoffBase (openai_compat.cfg (openai_compat.New cfg0)).
Proof.
  cbn. split.
  - destruct (Z.ltb_spec (openai_compat.MaxRetries cfg0) 0); lia.
  - destruct (Z.leb_spec (openai_compat.BackoffBase cfg0) 0); [reflexivity|lia].
Qed.

Lemma custom_New_bounds cfg0 :
  0 <= custom_http.MaxRetries (custom_http.cfg (custom_http.New cfg0)) /\
  0 < custom_http.BackoffBase (custom_http.cfg (custom_http.New cfg0)).
Proof.
  cbn. split.
  - destruct (Z.ltb_spec (custom_http.MaxRetries cfg0) 0); lia.
  - destruct (Z.leb_spec (custom_http.BackoffBase cfg0) 0); [reflexivity|lia].
Qed.



(** ** The worker: one job *)

(** [processJob] is its preparation followed by the call and the reply. *)
Lemma processJob_prepare L wk job w :
  worker.processJob L wk job w
  = match worker.prepare L wk (store w) job with
    | worker.PresetMissing =>
      (Ok tt, exec (worker.sendError (queue.ChatID job) (queue.MessageID job)
                "Preset not found. Configure /ai_default or use /ai <preset>.") w)
    | worker.Failed e => (Err e, w)
    | worker.Ready p req => worker.callAndReply L job p req w
    end.
Proof.
  unfold worker.processJob, worker.prepare.
  rewrite bind_run. change (eval (get store) w) with (store w).
  change (exec (get store) w) with w.
  destruct (worker.resolvePreset (store w) (queue.ChatID job) (queue.PresetName job))
    as [pp|err].
  2:{ destruct (is_not_found err); [|reflexivity].
      rewrite bind_run. reflexivity. }
  cbv zeta.
  destruct (worker.decryptOptional L wk _) as [apiKey|]; [|reflexivity].
  destruct (worker.decryptOptional L wk _) as [raw|]; [|reflexivity].
  destruct (if blank raw then _ else _) as [headers|]; [|reflexivity].
  destruct (if blank _ then _ else _) as [providerCfg|]; [|reflexivity].
  destruct (registry.Build _) as [p|]; reflexivity.
Qed.

Lemma SendMessage_run chatID text replyTo w :
  ops.SendMessage chatID text replyTo w
  = (if op_ok (env w (length (trace w))) then Ok tt else Err (ErrMsg "send message"),
     push w (EvSend chatID text replyTo (op_ok (env w (length (trace w)))))).
Proof. reflexivity. Qed.

(** The reply text: at most 4000 runes, and exactly the first 4000 runes of
    the trimmed (or substituted) text when that is longer. *)
Lemma replyText_spec respText :
  let t := TrimSpace respText in
  let t' := if String.eqb t EmptyString
            then "Provider returned an empty response."%string else t in
  (Z.of_nat (length (runes t')) <= 4000 -> worker.replyText respText = t') /\
  (4000 < Z.of_nat (length (runes t')) ->
     runes (worker.replyText respText) = firstn 4000 (runes t') /\
     length (runes (worker.replyText respText)) = 4000%nat) /\
  Z.of_nat (length (runes (worker.replyText respText))) <= 4000.
Proof.
  cbv zeta. unfold worker.replyText, worker.emptyResponse.
  set (t' := if String.eqb (TrimSpace respText) EmptyString then _ else _).
  destruct (Z.ltb_spec 4000 (Z.of_nat (length (runes t')))) as [Hlong|Hshort].
  - rewrite runes_cut. rewrite length_take.
    split; [lia|]. split; [intros _; split; [reflexivity|lia]|lia].
  - split; [reflexivity|]. split; [lia|lia].
Qed.



(** Runes, not bytes: 4000 two-byte runes (8000 bytes) pass unchanged, 4001
    are cut to 4000 runes (8000 bytes). *)
Example reply_cap_counts_runes :
  worker.replyText (Reference.accents 4000) = Reference.accents 4000 /\
  worker.replyText (Reference.accents 4001) = Reference.accents 4000 /\
  Z.of_nat (String.length (Reference.accents 4000)) = 8000.
Proof. vm_compute. repeat split; reflexivity. Qed.

(** ** The worker: retry and acknowledgement *)

Lemma Enqueue_run job w :
  let a := env w (length (trace w)) in
  let job' := queue.stamp job (random_id a) (clock a) in
  ops.Enqueue job w
  = if op_ok a
    then (Ok (queue.next_id (stream w)),
          push (set_stream w (snd (queue.xadd (stream w) job')))
            (EvXAdd job' (Some (queue.next_id (stream w)))))
    else (Err (ErrMsg "enqueue"), push w (EvXAdd job' None)).
Proof.
  cbv zeta. unfold ops.Enqueue.
  cbv beta iota zeta delta [bind answer emit ret get modify].
  destruct (op_ok (env w (length (trace w)))); reflexivity.
Qed.

Lemma Ack_run id w :
  let a := env w (length (trace w)) in
  let b := env w (S (length (trace w))) in
  ops.Ack id w
  = if op_ok a
    then if op_ok b
         then (Ok tt, push (set_stream (push (set_stream w (queue.xack (stream w) id))
                                          (EvXAck id true))
                              (queue.xdel (queue.xack (stream w) id) id))
                        (EvXDel id true))
         else (Err (ErrMsg "xdel"),
               push (push (set_stream w (queue.xack (stream w) id)) (EvXAck id true))
                 (EvXDel id false))
    else (Err (ErrMsg "xack"), push w (EvXAck id false)).
Proof.
  cbv zeta. unfold ops.Ack.
  cbv beta iota zeta delta [bind answer emit ret get modify].
  destruct (op_ok (env w (length (trace w)))) eqn:Ha; [|reflexivity].
  cbn [trace push set_stream env]. rewrite length_app. cbn [length].
  replace (length (trace w) + 1)%nat with (S (length (trace w))) by lia.
  destruct (op_ok (env w (S (length (trace w))))); reflexivity.
Qed.

Lemma Ack_trace id w :
  exists evs, trace (exec (ops.Ack id) w) = trace w ++ evs /\ ops.ack_events id evs /\
              metrics (exec (ops.Ack id) w) = metrics w /\
              store (exec (ops.Ack id) w) = store w /\
              env (exec (ops.Ack id) w) = env w.
Proof.
  unfold exec. rewrite Ack_run. cbv zeta.
  destruct (op_ok (env w (length (trace w)))).
  - destruct (op_ok (env w (S (length (trace w))))).
    + exists [EvXAck id true; EvXDel id true]. cbn. rewrite <- app_assoc.
      repeat split; try reflexivity. right. eauto.
    + exists [EvXAck id true; EvXDel id false]. cbn. rewrite <- app_assoc.
      repeat split; try reflexivity. right. eauto.
  - exists [EvXAck id false]. cbn. repeat split; try reflexivity. left. reflexivity.
Qed.

(** [handleMessage] after a failed [processJob]: the failure is counted,
    then the job is written again and the old entry acknowledged, or, without
    retries left, the error is reported and the entry acknowledged. *)
Lemma handleMessage_failed L wk msg w e :
  eval (worker.processJob L wk (queue.Job msg)) w = Err e ->
  let w1 := exec metrics.IncFailed (exec (worker.processJob L wk (queue.Job msg)) w) in
  exec (worker.handleMessage L wk msg) w
  = if queue.Attempts (queue.Job msg) <? worker.maxJobRetries wk
    then
      let job := queue.set_Attempts (queue.Job msg) (queue.Attempts (queue.Job msg) + 1) in
      match eval (ops.Enqueue job) w1 with
      | Err _ => exec (ops.Enqueue job) w1
      | Ok _ => exec (ops.Ack (queue.ID msg)) (exec (ops.Enqueue job) w1)
      end
    else
      exec (ops.Ack (queue.ID msg))
        (exec (worker.sendError (queue.ChatID (queue.Job msg))
                 (queue.MessageID (queue.Job msg)) worker.terminalError) w1).
Proof.
  intros Herr. cbv zeta. unfold worker.handleMessage.
  rewrite exec_bind, Herr, exec_bind.
  destruct (queue.Attempts (queue.Job msg) <? worker.maxJobRetries wk).
  - rewrite exec_bind.
    destruct (eval (ops.Enqueue _) _); [|reflexivity].
    rewrite exec_bind. reflexivity.
  - rewrite !exec_bind. reflexivity.
Qed.

Lemma IncFailed_spec w :
  trace (exec metrics.IncFailed w) = trace w /\
  stream (exec metrics.IncFailed w) = stream w /\
  env (exec metrics.IncFailed w) = env w /\
  store (exec metrics.IncFailed w) = store w /\
  FailedJobs (metrics (exec metrics.IncFailed w)) = FailedJobs (metrics w) + 1.
Proof. repeat split; reflexivity. Qed.

Lemma xack_entries q id : queue.entries (queue.xack q id) = queue.entries q.
Proof. reflexivity. Qed.

Lemma Ack_entries id w m :
  In m (queue.entries (stream (exec (ops.Ack id) w))) -> In m (queue.entries (stream w)).
Proof.
  unfold exec. rewrite Ack_run. cbv zeta.
  destruct (op_ok (env w (length (trace w)))); [|intros H; exact H].
  destruct (op_ok (env w (S (length (trace w))))); cbn; [|intros H; exact H].
  rewrite filter_In. intros [H _]. exact H.
Qed.

(** C3. When processing a job fails: with [attempts < max_retries] the
    worker writes a new entry that carries the job with [attempts + 1] and
    only then acknowledges the old entry, and when that write fails the old
    entry is left as it is, not acknowledged; with [attempts = max_retries]
    it sends "LLM provider error. Please try again later." to the chat and
    acknowledges the entry, writing nothing to the stream. *)
Theorem C3_failed_job_retry_or_terminal
    (L : worker.Lib) (wk : worker.Worker) (msg : queue.Message) (w : World) (e : error) :
  eval (worker.processJob L wk (queue.Job msg)) w = Err e ->
  let w1 := exec metrics.IncFailed (exec (worker.processJob L wk (queue.Job msg)) w) in
  let a := env w1 (length (trace w1)) in
  let job' := queue.stamp
                (queue.set_Attempts (queue.Job msg) (queue.Attempts (queue.Job msg) + 1))
                (random_id a) (clock a) in
  let w' := exec (worker.handleMessage L wk msg) w in
  (queue.Attempts (queue.Job msg) < worker.maxJobRetries wk -> op_ok a = true ->
     queue.Attempts job' = queue.Attempts (queue.Job msg) + 1 /\
     exists acks,
       trace w' = trace w1 ++ EvXAdd job' (Some (queue.next_id (stream w1))) :: acks /\
       ops.ack_events (queue.ID msg) acks) /\
  (queue.Attempts (queue.Job msg) < worker.maxJobRetries wk -> op_ok a = false ->
     trace w' = trace w1 ++ [EvXAdd job' None] /\ stream w' = stream w1) /\
  (queue.Attempts (queue.Job msg) = worker.maxJobRetries wk ->
     exists acks,
       trace w' = trace w1
         ++ EvSend (queue.ChatID (queue.Job msg))
              "LLM provider error. Please try again later."
              (if 0 <? queue.MessageID (queue.Job msg)
               then queue.MessageID (queue.Job msg) else 0) (op_ok a) :: acks /\
       ops.ack_events (queue.ID msg) acks /\
       forall m, In m (queue.entries (stream w')) -> In m (queue.entries (stream w1))).
Proof.
  intros Herr. cbv zeta.
  rewrite (handleMessage_failed L wk msg w e Herr). cbv zeta.
  set (w1 := exec metrics.IncFailed (exec (worker.processJob L wk (queue.Job msg)) w)).
  split; [|split].
  - intros Hlt Hok. rewrite (proj2 (Z.ltb_lt _ _)) by exact Hlt.
    split; [reflexivity|].
    pose proof (Enqueue_run (queue.set_Attempts (queue.Job msg)
                  (queue.Attempts (queue.Job msg) + 1)) w1) as HE.
    cbv zeta in HE. rewrite Hok in HE.
    destruct (run_pair _ _ _ _ HE) as [Hev Hex]. rewrite Hev, Hex.
    destruct (Ack_trace (queue.ID msg)
                (push (set_stream w1 (snd (queue.xadd (stream w1)
                   (queue.stamp (queue.set_Attempts (queue.Job msg)
                      (queue.Attempts (queue.Job msg) + 1))
                      (random_id (env w1 (length (trace w1))))
                      (clock (env w1 (length (trace w1))))))))
                   (EvXAdd (queue.stamp (queue.set_Attempts (queue.Job msg)
                      (queue.Attempts (queue.Job msg) + 1))
                      (random_id (env w1 (length (trace w1))))
                      (clock (env w1 (length (trace w1)))))
                      (Some (queue.next_id (stream w1))))))
      as (acks & Ht & Hacks & _).
    exists acks. split; [|exact Hacks].
    rewrite Ht. cbn [trace push set_stream]. rewrite <- app_assoc. reflexivity.
  - intros Hlt Hok. rewrite (proj2 (Z.ltb_lt _ _)) by exact Hlt.
    pose proof (Enqueue_run (queue.set_Attempts (queue.Job msg)
                  (queue.Attempts (queue.Job msg) + 1)) w1) as HE.
    cbv zeta in HE. rewrite Hok in HE.
    destruct (run_pair _ _ _ _ HE) as [Hev Hex]. rewrite Hev, Hex.
    split; reflexivity.
  - intros Heq. rewrite (proj2 (Z.ltb_ge _ _)) by lia.
    unfold worker.sendError.
    destruct (run_pair _ _ _ _ (SendMessage_run (queue.ChatID (queue.Job msg))
      worker.terminalError
      (if 0 <? queue.MessageID (queue.Job msg) then queue.MessageID (queue.Job msg) else 0)
      w1)) as [_ Hex].
    rewrite Hex.
    destruct (Ack_trace (queue.ID msg)
                (push w1 (EvSend (queue.ChatID (queue.Job msg)) worker.terminalError
                   (if 0 <? queue.MessageID (queue.Job msg)
                    then queue.MessageID (queue.Job msg) else 0)
                   (op_ok (env w1 (length (trace w1)))))))
      as (acks & Ht & Hacks & _).
    exists acks. split; [|split; [exact Hacks|]].
    + rewrite Ht. cbn [trace push]. rewrite <- app_assoc. reflexivity.
    + intros m Hm. apply Ack_entries in Hm. exact Hm.
Qed.

Lemma C3_failed_job_retry_or_terminal_witness :
  exists job' acks,
    trace (exec (worker.handleMessage Reference.refWorkerLib Reference.worker23
                   Reference.message1) Reference.delivered)
    = trace (exec (worker.processJob Reference.refWorkerLib Reference.worker23
                     Reference.job55) Reference.delivered)
      ++ EvXAdd job' (Some 2) :: acks /\
    queue.Attempts job' = 1 /\
    ops.ack_events 1 acks.
Proof.
  destruct (C3_failed_job_retry_or_terminal Reference.refWorkerLib Reference.worker23
              Reference.message1 Reference.delivered (ErrMsg "provider chat"))
    as (Hretry & _ & _).
  - vm_compute. reflexivity.
  - destruct Hretry as (Hatt & acks & Htrace & Hacks).
    + vm_compute. reflexivity.
    + vm_compute. reflexivity.
    + eexists _, acks. split; [exact Htrace|]. split; [exact Hatt|exact Hacks].
Defined.

(** ** The worker: what processing a job leaves untouched *)

Lemma extends_ret {A} (a : A) w : extends w (exec (ret a) w) [].
Proof. apply extends_refl. Qed.

Lemma httpDo_extends url w :
  extends w (exec (httpDo url) w) [EvHTTP url (http_answer (env w (length (trace w))))].
Proof. apply extends_push. Qed.

Lemma openai_callOnce_extends L c url body w :
  exists evs, extends w (exec (openai_compat.callOnce L c url body) w) evs.
Proof.
  unfold openai_compat.callOnce.
  destruct (negb (newRequest L "POST" url)); [eexists; apply extends_refl|].
  rewrite exec_bind.
  exists [EvHTTP url (http_answer (env w (length (trace w))))].
  change (eval (httpDo url) w) with (http_answer (env w (length (trace w)))).
  change (exec (httpDo url) w)
    with (push w (EvHTTP url (http_answer (env w (length (trace w)))))).
  destruct (http_answer (env w (length (trace w)))) as [| |status parsed];
    [apply extends_push|apply extends_push|].
  destruct ((500 <=? status) || (status =? StatusTooManyRequests))%bool;
    [apply extends_push|].
  destruct ((status <? 200) || (299 <? status))%bool; [apply extends_push|].
  destruct parsed; apply extends_push.
Qed.

Lemma custom_callOnce_extends L c body w :
  exists evs, extends w (exec (custom_http.callOnce L c body) w) evs.
Proof.
  unfold custom_http.callOnce.
  destruct (blank _); [eexists; apply extends_refl|].
  destruct (negb (newRequest L _ _)); [eexists; apply extends_refl|].
  rewrite exec_bind.
  exists [EvHTTP (custom_http.URL (custom_http.cfg c))
            (http_answer (env w (length (trace w))))].
  change (eval (httpDo (custom_http.URL (custom_http.cfg c))) w)
    with (http_answer (env w (length (trace w)))).
  change (exec (httpDo (custom_http.URL (custom_http.cfg c))) w)
    with (push w (EvHTTP (custom_http.URL (custom_http.cfg c))
                    (http_answer (env w (length (trace w)))))).
  destruct (http_answer (env w (length (trace w)))) as [| |status parsed];
    [apply extends_push|apply extends_push|].
  destruct ((500 <=? status) || (status =? StatusTooManyRequests))%bool;
    [apply extends_push|].
  destruct ((status <? 200) || (299 <? status))%bool; [apply extends_push|].
  destruct parsed; apply extends_push.
Qed.

Lemma backoffSelect_extends d w : exists evs, extends w (exec (backoffSelect d) w) evs.
Proof. eexists. apply extends_push. Qed.

Lemma openai_attempts_extends L c url body n :
  forall attempt lastErr w,
    exists evs, extends w (exec (openai_compat.attempts L c url body n attempt lastErr) w) evs.
Proof.
  induction n as [|n IH]; intros attempt lastErr w.
  - eexists. apply extends_refl.
  - cbn [openai_compat.attempts]. rewrite exec_bind.
    destruct (openai_callOnce_extends L c url body w) as [evs1 H1].
    destruct (eval (openai_compat.callOnce L c url body) w) as [[text|err] retry].
    + exists evs1. exact H1.
    + destruct (negb retry || (attempt =? openai_compat.MaxRetries (openai_compat.cfg c)))%bool.
      * exists evs1. exact H1.
      * rewrite exec_bind.
        destruct (backoffSelect_extends
                    (backoff (openai_compat.BackoffBase (openai_compat.cfg c)) attempt)
                    (exec (openai_compat.callOnce L c url body) w)) as [evs2 H2].
        destruct (eval (backoffSelect _) _).
        -- exists (evs1 ++ evs2). eapply extends_trans; [exact H1|exact H2].
        -- destruct (IH (attempt + 1) (Some err) (exec (backoffSelect
                 (backoff (openai_compat.BackoffBase (openai_compat.cfg c)) attempt))
                 (exec (openai_compat.callOnce L c url body) w))) as [evs3 H3].
           exists ((evs1 ++ evs2) ++ evs3).
           eapply extends_trans; [eapply extends_trans; [exact H1|exact H2]|exact H3].
Qed.

Lemma custom_attempts_extends L c body n :
  forall attempt lastErr w,
    exists evs, extends w (exec (custom_http.attempts L c body n attempt lastErr) w) evs.
Proof.
  induction n as [|n IH]; intros attempt lastErr w.
  - eexists. apply extends_refl.
  - cbn [custom_http.attempts]. rewrite exec_bind.
    destruct (custom_callOnce_extends L c body w) as [evs1 H1].
    destruct (eval (custom_http.callOnce L c body) w) as [[text|err] retry].
    + exists evs1. exact H1.
    + destruct (negb retry || (attempt =? custom_http.MaxRetries (custom_http.cfg c)))%bool.
      * exists evs1. exact H1.
      * rewrite exec_bind.
        destruct (backoffSelect_extends
                    (backoff (custom_http.BackoffBase (custom_http.cfg c)) attempt)
                    (exec (custom_http.callOnce L c body) w)) as [evs2 H2].
        destruct (eval (backoffSelect _) _).
        -- exists (evs1 ++ evs2). eapply extends_trans; [exact H1|exact H2].
        -- destruct (IH (attempt + 1) (Some err) (exec (backoffSelect
                 (backoff (custom_http.BackoffBase (custom_http.cfg c)) attempt))
                 (exec (custom_http.callOnce L c body) w))) as [evs3 H3].
           exists ((evs1 ++ evs2) ++ evs3).
           eapply extends_trans; [eapply extends_trans; [exact H1|exact H2]|exact H3].
Qed.

Lemma Chat_extends L p req w :
  exists evs, extends w (exec (registry.Chat L p req) w) evs.
Proof.
  destruct p as [c|c]; cbn [registry.Chat].
  - unfold openai_compat.Chat.
    destruct (openai_compat.buildPayload L c req) as [[body url]|e].
    + apply openai_attempts_extends.
    + eexists. apply extends_refl.
  - unfold custom_http.Chat.
    destruct (custom_http.renderBody L c req) as [body|e].
    + apply custom_attempts_extends.
    + eexists. apply extends_refl.
Qed.

Lemma processJob_extends L wk job w :
  exists evs, extends w (exec (worker.processJob L wk job) w) evs.
Proof.
  unfold exec at 1. rewrite processJob_prepare.
  destruct (worker.prepare L wk (store w) job) as [|e|p req].
  - eexists. cbn [snd]. apply extends_push.
  - eexists. apply extends_refl.
  - change (snd (worker.callAndReply L job p req w))
      with (exec (worker.callAndReply L job p req) w).
    unfold worker.callAndReply. rewrite exec_bind.
    destruct (Chat_extends (worker.httpLib L) p req w) as [evs1 H1].
    destruct (eval (registry.Chat (worker.httpLib L) p req) w) as [text|e].
    + rewrite exec_bind.
      eexists. eapply extends_trans; [exact H1|].
      destruct (eval (ops.SendMessage _ _ _) _); apply extends_push.
    + exists evs1. exact H1.
Qed.

(** ** The worker: the two copies of a retried job *)

Lemma outstanding_In q m :
  In m (queue.entries q) ->
  In m (queue.outstanding q (queue.ChatID (queue.Job m)) (queue.MessageID (queue.Job m))).
Proof.
  intros H. unfold queue.outstanding. apply filter_In. split; [exact H|].
  rewrite !Z.eqb_refl. reflexivity.
Qed.

Lemma Ack_stream id w :
  let a := env w (length (trace w)) in
  let b := env w (S (length (trace w))) in
  stream (exec (ops.Ack id) w)
  = if op_ok a
    then if op_ok b then queue.xdel (queue.xack (stream w) id) id
         else queue.xack (stream w) id
    else stream w.
Proof.
  cbv zeta. unfold exec. rewrite Ack_run. cbv zeta.
  destruct (op_ok (env w (length (trace w)))); [|reflexivity].
  destruct (op_ok (env w (S (length (trace w))))); reflexivity.
Qed.

(** C2 (amended). When a job fails with retries left and the new entry can
    be written: the job written has [attempts] one more than the job handled
    and belongs to the same telegram message; it is written first, so that
    the old and the new entry are outstanding together; the acknowledgement
    of the old entry comes immediately after; the new entry stays, and the
    old entry leaves the stream exactly when XACK and XDEL both succeed. *)
Theorem C2_retry_copy_written_before_ack
    (L : worker.Lib) (wk : worker.Worker) (msg : queue.Message) (w : World) (e : error) :
  eval (worker.processJob L wk (queue.Job msg)) w = Err e ->
  queue.Attempts (queue.Job msg) < worker.maxJobRetries wk ->
  In msg (queue.entries (stream w)) ->
  queue.ID msg < queue.next_id (stream w) ->
  let w1 := exec metrics.IncFailed (exec (worker.processJob L wk (queue.Job msg)) w) in
  let a := env w1 (length (trace w1)) in
  op_ok a = true ->
  let retried := queue.set_Attempts (queue.Job msg) (queue.Attempts (queue.Job msg) + 1) in
  let job' := queue.stamp retried (random_id a) (clock a) in
  let new := {| queue.ID := queue.next_id (stream w); queue.Job := job' |} in
  let mid := exec (ops.Enqueue retried) w1 in
  let w' := exec (worker.handleMessage L wk msg) w in
  let chat := queue.ChatID (queue.Job msg) in
  let msgid := queue.MessageID (queue.Job msg) in
  queue.Attempts job' = queue.Attempts (queue.Job msg) + 1 /\
  trace mid = trace w1 ++ [EvXAdd job' (Some (queue.ID new))] /\
  (In msg (queue.outstanding (stream mid) chat msgid) /\
   In new (queue.outstanding (stream mid) chat msgid) /\ msg <> new) /\
  w' = exec (ops.Ack (queue.ID msg)) mid /\
  (exists acks, trace w' = trace mid ++ acks /\ ops.ack_events (queue.ID msg) acks) /\
  In new (queue.outstanding (stream w') chat msgid) /\
  (In msg (queue.outstanding (stream w') chat msgid) <->
   ~ (op_ok (env mid (length (trace mid))) = true /\
      op_ok (env mid (S (length (trace mid)))) = true)).
Proof.
  intros Herr Hlt Hin Hfresh. cbv zeta. intros Hok.
  destruct (processJob_extends L wk (queue.Job msg) w)
    as (evs & _ & _ & Hstream & _).
  set (w1 := exec metrics.IncFailed (exec (worker.processJob L wk (queue.Job msg)) w))
    in *.
  assert (Hs1 : stream w1 = stream w) by exact Hstream.
  set (retried := queue.set_Attempts (queue.Job msg) (queue.Attempts (queue.Job msg) + 1)).
  pose proof (Enqueue_run retried w1) as HE. cbv zeta in HE. rewrite Hok in HE.
  destruct (run_pair _ _ _ _ HE) as [Hev Hex].
  set (job' := queue.stamp retried (random_id (env w1 (length (trace w1))))
                 (clock (env w1 (length (trace w1))))) in *.
  set (new := {| queue.ID := queue.next_id (stream w); queue.Job := job' |}).
  assert (Hneq : msg <> new).
  { intros Heq. rewrite Heq in Hfresh. cbn [queue.ID new] in Hfresh. lia. }
  assert (Hmid : queue.entries (stream (exec (ops.Enqueue retried) w1))
                 = queue.entries (stream w) ++ [new]).
  { rewrite Hex. cbn [stream push set_stream queue.xadd snd queue.entries].
    rewrite Hs1. reflexivity. }
  assert (Hnew_out : forall q, In new (queue.entries q) ->
            In new (queue.outstanding q (queue.ChatID (queue.Job msg))
                      (queue.MessageID (queue.Job msg)))).
  { intros q Hq. apply (outstanding_In q new Hq). }
  assert (Hh : exec (worker.handleMessage L wk msg) w
               = exec (ops.Ack (queue.ID msg)) (exec (ops.Enqueue retried) w1)).
  { rewrite (handleMessage_failed L wk msg w e Herr). cbv zeta.
    rewrite (proj2 (Z.ltb_lt _ _)) by exact Hlt.
    fold w1. fold retried. rewrite Hev. reflexivity. }
  split; [reflexivity|].
  split; [rewrite Hex, Hs1; reflexivity|].
  split.
  { split; [|split; [|exact Hneq]].
    - apply outstanding_In. rewrite Hmid. apply in_or_app. left. exact Hin.
    - apply Hnew_out. rewrite Hmid. apply in_or_app. right. left. reflexivity. }
  split; [exact Hh|].
  split.
  { rewrite Hh.
    destruct (Ack_trace (queue.ID msg) (exec (ops.Enqueue retried) w1))
      as (acks & Ht & Hacks & _).
    exists acks. split; [exact Ht|exact Hacks]. }
  rewrite Hh.
  pose proof (Ack_stream (queue.ID msg) (exec (ops.Enqueue retried) w1)) as HA.
  cbv zeta in HA. rewrite HA. clear HA.
  set (mid := exec (ops.Enqueue retried) w1) in *.
  assert (Hnew_mid : In new (queue.entries (stream mid))).
  { rewrite Hmid. apply in_or_app. right. left. reflexivity. }
  assert (Hmsg_mid : In msg (queue.entries (stream mid))).
  { rewrite Hmid. apply in_or_app. left. exact Hin. }
  assert (Hdel_new : In new (queue.entries (queue.xdel (queue.xack (stream mid) (queue.ID msg))
                                              (queue.ID msg)))).
  { cbn [queue.xdel queue.xack queue.entries]. apply filter_In.
    split; [exact Hnew_mid|]. cbn [queue.ID new].
    apply negb_true_iff, Z.eqb_neq. lia. }
  assert (Hdel_msg : ~ In msg (queue.entries (queue.xdel (queue.xack (stream mid) (queue.ID msg))
                                                (queue.ID msg)))).
  { cbn [queue.xdel queue.xack queue.entries]. rewrite filter_In.
    intros [_ H]. rewrite Z.eqb_refl in H. discriminate H. }
  destruct (op_ok (env mid (length (trace mid)))).
  - destruct (op_ok (env mid (S (length (trace mid))))).
    + split; [apply Hnew_out, Hdel_new|].
      split.
      * intros H. exfalso. apply Hdel_msg.
        unfold queue.outstanding in H. apply filter_In in H. exact (proj1 H).
      * intros H. exfalso. apply H. split; reflexivity.
    + split; [apply Hnew_out; exact Hnew_mid|].
      split.
      * intros _ [_ H]. discriminate H.
      * intros _. apply outstanding_In. exact Hmsg_mid.
  - split; [apply Hnew_out; exact Hnew_mid|].
    split.
    + intros _ [H _]. discriminate H.
    + intros _. apply outstanding_In. exact Hmsg_mid.
Qed.

Lemma C2_retry_copy_written_before_ack_witness :
  let mid := exec (ops.Enqueue (queue.set_Attempts Reference.job55 1))
               (exec metrics.IncFailed
                  (exec (worker.processJob Reference.refWorkerLib Reference.worker23
                           Reference.job55) Reference.delivered)) in
  let new := {| queue.ID := 2; queue.Job := queue.set_Attempts Reference.job55 1 |} in
  In Reference.message1 (queue.outstanding (stream mid) 111 55) /\
  In new (queue.outstanding (stream mid) 111 55) /\
  Reference.message1 <> new.
Proof.
  cbv zeta.
  refine (proj1 (proj2 (proj2
    (C2_retry_copy_written_before_ack Reference.refWorkerLib Reference.worker23
       Reference.message1 Reference.delivered (ErrMsg "provider chat")
       _ _ _ _ _)))).
  - vm_compute. reflexivity.
  - vm_compute. reflexivity.
  - left. reflexivity.
  - vm_compute. reflexivity.
  - vm_compute. reflexivity.
Defined.

(** C2 as stated fails: while the worker handles the failed job of entry 1,
    it writes entry 2 for the same telegram message before it acknowledges
    entry 1. After the write the stream holds both entries, and in the run
    the re-enqueue comes before the acknowledgement. *)
Lemma C2_counterexample_two_copies_outstanding :
  let w1 := exec metrics.IncFailed
              (exec (worker.processJob Reference.refWorkerLib Reference.worker23
                       Reference.job55) Reference.delivered) in
  let mid := exec (ops.Enqueue (queue.set_Attempts Reference.job55 1)) w1 in
  exec (worker.handleMessage Reference.refWorkerLib Reference.worker23 Reference.message1)
       Reference.delivered
  = exec (ops.Ack 1) mid /\
  map queue.ID (queue.outstanding (stream mid) 111 55) = [1; 2] /\
  queue.pending (stream mid) = [1] /\
  worker.timeline
    (trace (exec (worker.handleMessage Reference.refWorkerLib Reference.worker23
                    Reference.message1) Reference.delivered))
  = [worker.Delivered 1 0; worker.Attempt; worker.Attempt; worker.Attempt;
     worker.Requeued 2 1; worker.Acked 1].
Proof.
  cbv zeta. split; [vm_compute; reflexivity|].
  split; [vm_compute; reflexivity|].
  split; vm_compute; reflexivity.
Qed.

(** ** The worker: the consume loop *)

Lemma ctxErr_run w :
  ops.ctxErr w
  = (ctx_done (env w (length (trace w))),
     push w (EvCtxErr (ctx_done (env w (length (trace w)))))).
Proof. reflexivity. Qed.

Lemma Read_run count w :
  ops.Read count w
  = if op_ok (env w (length (trace w)))
    then (Ok (fst (queue.xreadgroup (stream w) count)),
          push (set_stream w (snd (queue.xreadgroup (stream w) count)))
               (EvXReadGroup (fst (queue.xreadgroup (stream w) count)) true))
    else (Err (ErrMsg "xreadgroup"), push w (EvXReadGroup [] false)).
Proof.
  unfold ops.Read. rewrite bind_run.
  change (eval answer w) with (env w (length (trace w))).
  change (exec answer w) with w.
  destruct (op_ok (env w (length (trace w)))); reflexivity.
Qed.

(** One iteration of the loop in which the context has not ended and the
    read succeeds. *)
Lemma consumeLoop_step L wk n w msgs :
  eval ops.ctxErr w = false ->
  eval (ops.Read 1) (exec ops.ctxErr w) = Ok msgs ->
  exec (worker.consumeLoop L wk (S n)) w
  = exec (worker.consumeLoop L wk n)
      (exec (worker.handleAll L wk msgs) (exec (ops.Read 1) (exec ops.ctxErr w))).
Proof.
  intros Hctx Hread. cbn [worker.consumeLoop].
  rewrite exec_bind, Hctx. rewrite exec_bind, Hread. rewrite exec_bind.
  reflexivity.
Qed.

Lemma timeline_app evs1 evs2 :
  worker.timeline (evs1 ++ evs2) = worker.timeline evs1 ++ worker.timeline evs2.
Proof. unfold worker.timeline. apply flat_map_app. Qed.

(** With nothing in the stream the loop goes on reading and changes nothing
    else. *)
Lemma consumeLoop_idle L wk body id now n :
  forall w,
    env w = Reference.failing503 body id now ->
    queue.entries (stream w) = [] ->
    let w' := exec (worker.consumeLoop L wk n) w in
    queue.entries (stream w') = [] /\
    queue.pending (stream w') = queue.pending (stream w) /\
    metrics w' = metrics w /\
    worker.timeline (trace w') = worker.timeline (trace w).
Proof.
  induction n as [|n IH]; intros w Henv Hempty; cbv zeta.
  - repeat split; assumption || reflexivity.
  - assert (Hctx : eval ops.ctxErr w = false).
    { unfold eval. rewrite ctxErr_run. cbn [fst]. rewrite Henv. reflexivity. }
    assert (Hw1 : exec ops.ctxErr w = push w (EvCtxErr false)).
    { unfold exec. rewrite ctxErr_run. cbn [snd]. rewrite Henv. reflexivity. }
    assert (HR : ops.Read 1 (push w (EvCtxErr false))
                 = (Ok [],
                    push (set_stream (push w (EvCtxErr false))
                            (snd (queue.xreadgroup (stream w) 1)))
                         (EvXReadGroup [] true))).
    { rewrite Read_run. cbn [env push stream]. rewrite Henv. cbn [op_ok Reference.failing503].
      unfold queue.xreadgroup. rewrite Hempty. reflexivity. }
    destruct (run_pair _ _ _ _ HR) as [Hev Hex].
    rewrite (consumeLoop_step L wk n w []); [|exact Hctx|rewrite Hw1; exact Hev].
    rewrite Hw1, Hex. cbn [worker.handleAll].
    change (exec (ret tt) ?x) with x.
    set (w2 := push _ (EvXReadGroup [] true)).
    destruct (IH w2) as (H1 & H2 & H3 & H4).
    + exact Henv.
    + unfold w2, queue.xreadgroup. cbn [stream push set_stream queue.entries snd].
      exact Hempty.
    + split; [exact H1|]. split; [|split].
      * rewrite H2. unfold w2, queue.xreadgroup.
        cbn [stream push set_stream queue.pending snd]. rewrite Hempty.
        cbn. apply app_nil_r.
      * rewrite H3. reflexivity.
      * rewrite H4. unfold w2. cbn [trace push set_stream].
        rewrite !timeline_app. cbn. rewrite !app_nil_r. reflexivity.
Qed.

(** C4 (amended). Adapter retries 2, job retries 3, a provider that answers
    503 to every request, one job at [attempts = 0] in the stream, and a
    loop that is followed for four iterations or more. The job is executed
    four times, at attempts 0, 1, 2 and 3; each execution makes exactly three
    HTTP requests; the first three executions each write a new entry with
    [attempts] one higher and then acknowledge their own entry; the fourth
    sends the terminal error reply and acknowledges; the failure counter
    ends at 4 and the stream ends empty. *)
Theorem C4_always_503_job_life
    (body : nat -> result string) (id : nat -> string) (now : nat -> Z) (k : nat) :
  let w := exec (worker.consumeLoop Reference.refWorkerLib Reference.worker23 (4 + k))
             (Reference.world Reference.store111 Reference.stream1
                (Reference.failing503 body id now)) in
  worker.timeline (trace w)
  = [worker.Delivered 1 0; worker.Attempt; worker.Attempt; worker.Attempt;
     worker.Requeued 2 1; worker.Acked 1;
     worker.Delivered 2 1; worker.Attempt; worker.Attempt; worker.Attempt;
     worker.Requeued 3 2; worker.Acked 2;
     worker.Delivered 3 2; worker.Attempt; worker.Attempt; worker.Attempt;
     worker.Requeued 4 3; worker.Acked 3;
     worker.Delivered 4 3; worker.Attempt; worker.Attempt; worker.Attempt;
     worker.Replied "LLM provider error. Please try again later."; worker.Acked 4] /\
  FailedJobs (metrics w) = 4 /\
  queue.entries (stream w) = [] /\
  queue.pending (stream w) = [].
Proof.
  cbv zeta. cbn [Nat.add].
  erewrite consumeLoop_step; [|vm_compute; reflexivity|vm_compute; reflexivity].
  erewrite consumeLoop_step; [|vm_compute; reflexivity|vm_compute; reflexivity].
  erewrite consumeLoop_step; [|vm_compute; reflexivity|vm_compute; reflexivity].
  erewrite consumeLoop_step; [|vm_compute; reflexivity|vm_compute; reflexivity].
  match goal with
  | |- context [exec (worker.consumeLoop _ _ k) ?w4] =>
    destruct (consumeLoop_idle Reference.refWorkerLib Reference.worker23 body id now k w4)
      as (H1 & H2 & H3 & H4)
  end.
  - vm_compute. reflexivity.
  - vm_compute. reflexivity.
  - rewrite H4, H3, H1, H2.
    split; [vm_compute; reflexivity|].
    split; [vm_compute; reflexivity|].
    split; [reflexivity|vm_compute; reflexivity].
Qed.

(** C4 as stated fails in its own scenario: the failure counter ends at 4,
    not 3, and the job is re-enqueued three times, not twice; the terminal
    reply comes in the fourth execution. *)
Lemma C4_counterexample_four_failures_three_requeues :
  let w := exec (worker.consumeLoop Reference.refWorkerLib Reference.worker23 8)
             (Reference.world Reference.store111 Reference.stream1 Reference.always503) in
  FailedJobs (metrics w) = 4 /\
  FailedJobs (metrics w) <> 3 /\
  List.filter (fun s => match s with worker.Requeued _ _ => true | _ => false end)
    (worker.timeline (trace w))
  = [worker.Requeued 2 1; worker.Requeued 3 2; worker.Requeued 4 3] /\
  http_count (trace w) = 12%nat /\
  worker.timeline (trace w)
  = [worker.Delivered 1 0; worker.Attempt; worker.Attempt; worker.Attempt;
     worker.Requeued 2 1; worker.Acked 1;
     worker.Delivered 2 1; worker.Attempt; worker.Attempt; worker.Attempt;
     worker.Requeued 3 2; worker.Acked 2;
     worker.Delivered 3 2; worker.Attempt; worker.Attempt; worker.Attempt;
     worker.Requeued 4 3; worker.Acked 3;
     worker.Delivered 4 3; worker.Attempt; worker.Attempt; worker.Attempt;
     worker.Replied "LLM provider error. Please try again later."; worker.Acked 4].
Proof.
  cbv zeta.
  split; [vm_compute; reflexivity|].
  split; [vm_compute; discriminate|].
  split; [vm_compute; reflexivity|].
  split; vm_compute; reflexivity.
Qed.
